(** * Royalty-flow explorer (app.py): shallow embedding and verified properties

    The program loads a nested JSON document (royalties.json), walks a
    selection path through it, builds a small directed graph with hand-computed
    node positions, and derives a checklist of rights.

    Conventions of the embedding.
    - A Python [str] is the Rocq [string] of its UTF-8 bytes.  Equality,
      [startswith] and [replace(" ", "_")] on the bytes agree with Python's
      on the code points; [strip] removes the white-space characters of
      Unicode, in ASCII or outside it.  [PyStr.lower] lowers the letters A-Z
      and nothing else, which is what the comparison of a lower-cased
      category with "ugc" needs; Python's [str.lower] follows the Unicode
      case tables, and where the lower-cased text is itself the result (the
      usage-explainer key) it is a parameter, [str_lower].
    - A Python [dict] is an association list in insertion order; the keys
      of a dict are distinct, which no statement below depends on.
    - A raised exception is the [Raise] constructor of [result]; calls to the
      user interface ([st.error], [st.pyplot]) are recorded in a log.
    - Coordinates keep Python's int/float distinction; a float that is the
      quotient of two small integers is represented by that rational. *)

From Stdlib Require Import String Ascii List ZArith QArith Bool Lia Permutation.
Import ListNotations.
Local Open Scope list_scope.
Local Open Scope string_scope.

(* ================================================================== *)
(** ** Python strings *)

Module PyStr.

Definition is_upper (c : ascii) : bool :=
  let n := nat_of_ascii c in (65 <=? n)%nat && (n <=? 90)%nat.

Definition lower_char (c : ascii) : ascii :=
  if is_upper c then ascii_of_nat (nat_of_ascii c + 32) else c.

(** [s.lower()], on the letters A-Z. *)
Fixpoint lower (s : string) : string :=
  match s with
  | EmptyString => EmptyString
  | String c s' => String (lower_char c) (lower s')
  end.

(** [s.replace(" ", "_")] *)
Fixpoint replace_space (s : string) : string :=
  match s with
  | EmptyString => EmptyString
  | String c s' =>
      String (if Ascii.eqb c " "%char then "_"%char else c) (replace_space s')
  end.

Definition bytes (l : list nat) : string :=
  fold_right (fun n s => String (ascii_of_nat n) s) EmptyString l.

(** The characters [str.strip()] removes, those [str.isspace] accepts, in
    UTF-8: tab, LF, VT, FF, CR, the four separators 0x1c-0x1f, the space,
    U+0085, U+00A0, U+1680, U+2000 to U+200A, U+2028, U+2029, U+202F,
    U+205F and U+3000. *)
Definition spaces : list string :=
  map bytes
    [[9]; [10]; [11]; [12]; [13]; [28]; [29]; [30]; [31]; [32];
     [194; 133]; [194; 160]; [225; 154; 128];
     [226; 128; 128]; [226; 128; 129]; [226; 128; 130]; [226; 128; 131];
     [226; 128; 132]; [226; 128; 133]; [226; 128; 134]; [226; 128; 135];
     [226; 128; 136]; [226; 128; 137]; [226; 128; 138];
     [226; 128; 168]; [226; 128; 169]; [226; 128; 175];
     [226; 129; 159]; [227; 128; 128]]%nat.

Fixpoint skip (n : nat) (s : string) : string :=
  match n, s with
  | S n', String _ s' => skip n' s'
  | _, _ => s
  end.

(** Removes the leading characters of [s] that are among [ws]; every
    round removes at least one byte, so [fuel = length s] rounds are
    enough. *)
Fixpoint lstrip_of (ws : list string) (fuel : nat) (s : string) : string :=
  match fuel with
  | O => s
  | S fuel' =>
      match find (fun w => String.prefix w s) ws with
      | Some w => lstrip_of ws fuel' (skip (String.length w) s)
      | None => s
      end
  end.

Definition lstrip (s : string) : string :=
  lstrip_of spaces (String.length s) s.

Definition rev (s : string) : string :=
  string_of_list_ascii (List.rev (list_ascii_of_string s)).

(** A character of [spaces] ends [s] exactly when its reversed bytes begin
    the reversed [s]: its first byte is never inside another character. *)
Definition rstrip (s : string) : string :=
  rev (lstrip_of (map rev spaces) (String.length s) (rev s)).

(** [s.strip()] *)
Definition strip (s : string) : string := rstrip (lstrip s).

(** [len(s)]: the number of code points, that is of bytes that do not
    continue a character. *)
Fixpoint len (s : string) : nat :=
  match s with
  | EmptyString => O
  | String c s' =>
      let n := nat_of_ascii c in
      if (128 <=? n)%nat && (n <=? 191)%nat then len s' else S (len s')
  end.

(** [s.startswith(p)] *)
Definition startswith (s p : string) : bool := String.prefix p s.

(** Truth value of a string: non-empty. *)
Definition nonempty (s : string) : bool :=
  match s with EmptyString => false | _ => true end.

End PyStr.

(* ================================================================== *)
(** ** JSON values, as [json.load] returns them *)

(** A Python number: [int] or [float]. *)
Inductive pynum : Type :=
| PInt (z : Z)
| PFloat (q : Q).

Definition pynum_value (n : pynum) : Q :=
  match n with
  | PInt z => inject_Z z
  | PFloat q => q
  end.

#[warnings="-register-all"]
Inductive json : Type :=
| JNull
| JBool (b : bool)
| JNum (n : pynum)
| JStr (s : string)
| JArr (l : list json)
| JObj (d : list (string * json)).

(** A [dict] with string keys. *)
Definition dict (V : Type) : Type := list (string * V).
Definition jdict : Type := dict json.

(** [bool(v)] *)
Definition truthy (v : json) : bool :=
  match v with
  | JNull => false
  | JBool b => b
  | JNum n => negb (Qeq_bool (pynum_value n) 0)
  | JStr s => PyStr.nonempty s
  | JArr l => match l with [] => false | _ => true end
  | JObj d => match d with [] => false | _ => true end
  end.

(** [isinstance(v, dict)] *)
Definition is_dict (v : json) : bool :=
  match v with JObj _ => true | _ => false end.

(* ================================================================== *)
(** ** Exceptions *)

Inductive exn : Type :=
| KeyError
| TypeError
| AttributeError
| FileNotFoundError
| JSONDecodeError
| OtherError.

Inductive result (A : Type) : Type :=
| Ok (a : A)
| Raise (e : exn).
Arguments Ok {A} a.
Arguments Raise {A} e.

Definition rbind {A B : Type} (m : result A) (f : A -> result B) : result B :=
  match m with
  | Ok a => f a
  | Raise e => Raise e
  end.

Declare Scope result_scope.
Delimit Scope result_scope with result.
Notation "x <- m ;; k" := (rbind m (fun x => k))
  (at level 61, m at next level, right associativity) : result_scope.
Local Open Scope result_scope.

Fixpoint rmap {A B : Type} (f : A -> result B) (l : list A) : result (list B) :=
  match l with
  | [] => Ok []
  | a :: l' => b <- f a ;; bs <- rmap f l' ;; Ok (b :: bs)
  end.

(* ================================================================== *)
(** ** Dictionaries *)

Module Dict.
Section Ops.
Context {V : Type}.

(** First binding of [k]. *)
Fixpoint lookup (k : string) (d : dict V) : option V :=
  match d with
  | [] => None
  | (k', v) :: d' => if String.eqb k k' then Some v else lookup k d'
  end.

(** [k in d] *)
Definition mem (k : string) (d : dict V) : bool :=
  match lookup k d with Some _ => true | None => false end.

(** [d.get(k, default)] *)
Definition get (d : dict V) (k : string) (default : V) : V :=
  match lookup k d with Some v => v | None => default end.

(** [d[k]] *)
Definition index (d : dict V) (k : string) : result V :=
  match lookup k d with Some v => Ok v | None => Raise KeyError end.

(** [d[k] = v]: overwrite in place, or append a new key. *)
Fixpoint set (k : string) (v : V) (d : dict V) : dict V :=
  match d with
  | [] => [(k, v)]
  | (k', v') :: d' =>
      if String.eqb k k' then (k', v) :: d' else (k', v') :: set k v d'
  end.

Definition keys (d : dict V) : list string := map fst d.
End Ops.
End Dict.

(** [v[k]] on an arbitrary JSON value. *)
Definition py_index (v : json) (k : string) : result json :=
  match v with
  | JObj d => Dict.index d k
  | _ => Raise TypeError
  end.

(** [v.get(k, default)] on an arbitrary JSON value. *)
Definition py_get (v : json) (k : string) (default : json) : result json :=
  match v with
  | JObj d => Ok (Dict.get d k default)
  | _ => Raise AttributeError
  end.

(** [v.strip()] on an arbitrary JSON value. *)
Definition py_strip (v : json) : result string :=
  match v with
  | JStr s => Ok (PyStr.strip s)
  | _ => Raise AttributeError
  end.

(* ================================================================== *)
(** ** User-interface effects *)

Definition position : Type := (pynum * pynum)%type.

Record DiGraph : Type := mkDiGraph {
  nodes : list string;
  edges : list (string * string)
}.

(** What [nx.draw] and [st.pyplot] receive. *)
Record figure : Type := mkFigure {
  fig_graph : DiGraph;
  fig_pos : dict position;
  fig_node_color : list string;
  fig_title : string
}.

Inductive ui_event : Type :=
| StError (msg : string)
| StPyplot (fig : figure).

(** A computation that may call the user interface and may raise. *)
Record ui (A : Type) : Type := mkUi {
  value : result A;
  log : list ui_event
}.
Arguments mkUi {A} value log.
Arguments value {A} u.
Arguments log {A} u.

Definition ui_ret {A : Type} (a : A) : ui A := mkUi (Ok a) [].

Definition ui_bind {A B : Type} (m : ui A) (f : A -> ui B) : ui B :=
  match value m with
  | Ok a => let r := f a in mkUi (value r) (log m ++ log r)%list
  | Raise e => mkUi (Raise e) (log m)
  end.

Definition ui_lift {A : Type} (r : result A) : ui A := mkUi r [].

Definition st_error (msg : string) : ui unit := mkUi (Ok tt) [StError msg].
Definition st_pyplot (fig : figure) : ui unit := mkUi (Ok tt) [StPyplot fig].

(** [try: body  except ...: handler]; [handler e = None] when no clause
    matches [e], which then propagates. *)
Definition ui_try {A : Type} (body : ui A) (handler : exn -> option (ui A)) : ui A :=
  match value body with
  | Ok _ => body
  | Raise e =>
      match handler e with
      | Some h => mkUi (value h) (log body ++ log h)%list
      | None => body
      end
  end.

Declare Scope ui_scope.
Delimit Scope ui_scope with ui.
Notation "x <- m ;; k" := (ui_bind m (fun x => k))
  (at level 61, m at next level, right associativity) : ui_scope.
Notation "m ;;; k" := (ui_bind m (fun _ => k))
  (at level 61, right associativity) : ui_scope.

(* ================================================================== *)
(** ** 1) Loading the dataset *)

(** What opening and parsing royalties.json can do: [open] fails with
    [FileNotFoundError]; [json.load] fails with [JSONDecodeError]; either
    fails with some other exception (a permission error, a decoding error);
    or a value is parsed. *)
Inductive file_read : Type :=
| NoSuchFile
| OtherFailure
| BadSyntax
| Parsed (v : json).

Definition open_and_parse (f : file_read) : result json :=
  match f with
  | NoSuchFile => Raise FileNotFoundError
  | OtherFailure => Raise OtherError
  | BadSyntax => Raise JSONDecodeError
  | Parsed v => Ok v
  end.

Definition msg_bad_root : string :=
  "Invalid JSON structure: Expected a dictionary at the root.".
Definition msg_not_found : string :=
  "Error: royalties.json file not found. Ensure it's in the correct directory.".
Definition msg_bad_json : string :=
  "Error: royalties.json contains invalid JSON formatting.".

Definition load_json (f : file_read) : ui jdict :=
  ui_try
    (data <- ui_lift (open_and_parse f) ;;
     match data with
     | JObj d => ui_ret d
     | _ => st_error msg_bad_root ;;; ui_ret []
     end)%ui
    (fun e =>
       match e with
       | FileNotFoundError => Some (st_error msg_not_found ;;; ui_ret [])%ui
       | JSONDecodeError => Some (st_error msg_bad_json ;;; ui_ret [])%ui
       | _ => None
       end).

(* ================================================================== *)
(** ** 2.1) Friendly labels *)

Definition friendly_mapping : dict string :=
  [ ("interactive_dsp", "Interactive DSP");
    ("traditional_digital", "Traditional Digital");
    ("non_interactive_services", "Non-Interactive Services");
    ("digital_downloads", "Digital Downloads");
    ("ugc", "User-Generated Content");
    ("non_digital", "Non-Digital");
    ("artist_label", "Artist/Label");
    ("writer_publisher", "Writer/Publisher");
    ("us", "US");
    ("international", "International");
    ("recording_revenues", "Recording Revenues");
    ("neighboring_rights", "Neighboring Rights");
    ("performance", "Performance Rights");
    ("mechanical", "Mechanical Rights");
    ("sync_fees", "Sync Fees");
    ("broadcast_radio_tv", "Broadcast Radio & TV");
    ("restaurants_bars_venues", "Restaurants, Bars & Venues");
    ("live_performances", "Live Performances");
    ("physical_sales", "Physical Sales");
    ("organic", "Organic");
    ("official_library", "Official Library");
    ("youtube", "YouTube");
    ("meta", "Meta");
    ("tiktok", "TikTok");
    ("snapchat", "Snapchat");
    ("twitch", "Twitch") ].

Definition friendly_text (key : string) : string :=
  Dict.get friendly_mapping (PyStr.lower key) key.

(* ================================================================== *)
(** ** 3) Flow-diagram construction *)

(** The part of [networkx.DiGraph] the program uses.  Nodes are kept in
    insertion order; an edge is present once however often it is added. *)
Module Graph.

Definition empty : DiGraph := mkDiGraph [] [].

Definition has_node (n : string) (g : DiGraph) : bool :=
  existsb (String.eqb n) (nodes g).

Definition add_node (n : string) (g : DiGraph) : DiGraph :=
  if has_node n g then g else mkDiGraph (nodes g ++ [n])%list (edges g).

Definition edge_eqb (e1 e2 : string * string) : bool :=
  String.eqb (fst e1) (fst e2) && String.eqb (snd e1) (snd e2).

Definition has_edge (u v : string) (g : DiGraph) : bool :=
  existsb (edge_eqb (u, v)) (edges g).

(** [G.add_edge(u, v)] also creates the end points that are missing. *)
Definition add_edge (u v : string) (g : DiGraph) : DiGraph :=
  let g := add_node v (add_node u g) in
  if has_edge u v g then g else mkDiGraph (nodes g) (edges g ++ [(u, v)])%list.

End Graph.

(** The three locals [G], [node_positions], [node_colors]. *)
Record flow_state : Type := mkFlow {
  G : DiGraph;
  node_positions : dict position;
  node_colors : dict string
}.

Definition with_node (n : string) (st : flow_state) : flow_state :=
  mkFlow (Graph.add_node n (G st)) (node_positions st) (node_colors st).

Definition with_edge (u v : string) (st : flow_state) : flow_state :=
  mkFlow (Graph.add_edge u v (G st)) (node_positions st) (node_colors st).

Definition with_color (n c : string) (st : flow_state) : flow_state :=
  mkFlow (G st) (node_positions st) (Dict.set n c (node_colors st)).

Definition with_position (n : string) (p : position) (st : flow_state) : flow_state :=
  mkFlow (G st) (Dict.set n p (node_positions st)) (node_colors st).

Definition x_offset : Z := 2.
Definition y_offset : Z := 2.
Definition source_color : string := "lightblue".
Definition inapplicable_color : string := "red".

(** [-((num_rights - 1) * y_offset) / 2], a true division. *)
Definition mid_y_of (num_rights : Z) : pynum :=
  PFloat (inject_Z (- ((num_rights - 1) * y_offset)) / inject_Z 2).

(** [len(v)] *)
Definition py_len (v : json) : result Z :=
  match v with
  | JObj d => Ok (Z.of_nat (length d))
  | JArr l => Ok (Z.of_nat (length l))
  | JStr s => Ok (Z.of_nat (PyStr.len s))
  | _ => Raise TypeError
  end.

(** [v.items()] *)
Definition py_items (v : json) : result (list (string * json)) :=
  match v with
  | JObj d => Ok d
  | _ => Raise AttributeError
  end.

(** The state before the loop: the source node alone. *)
Definition flow_init (source : string) (mid_y : pynum) : flow_state :=
  with_position source (PInt 0, mid_y)
    (with_color source source_color
       (with_node source (mkFlow Graph.empty [] []))).

(** One iteration of the loop over [enumerate(rights.items())]. *)
Definition flow_step (source role : string) (mid_y : pynum)
    (i : nat) (right : string) (details : json) (st : flow_state)
  : result flow_state :=
  match details with
  | JObj d =>
      collected_by <- py_strip (Dict.get d "collected_by" (JStr "")) ;;
      payee <- py_strip (Dict.get d "payee" (JStr "")) ;;
      let is_not_applicable := Dict.mem "fully_not_applicable" d in
      let payee := if PyStr.nonempty payee then payee else role in
      let right_x := x_offset in
      let right_y := (- Z.of_nat i * y_offset)%Z in
      let st := with_node right st in
      let st := with_edge source right st in
      let st :=
        with_color right
          (if is_not_applicable then inapplicable_color else source_color) st in
      let st := with_position right (PInt right_x, PInt right_y) st in
      if is_not_applicable then Ok st
      else
        let collected_by_x := (right_x + x_offset)%Z in
        let payee_x := (collected_by_x + x_offset)%Z in
        let st :=
          if PyStr.nonempty collected_by then
            with_position collected_by (PInt collected_by_x, PInt right_y)
              (with_color collected_by source_color
                 (with_edge right collected_by
                    (with_node collected_by st)))
          else st in
        let st :=
          if PyStr.nonempty payee then
            with_position payee (PInt payee_x, mid_y)
              (with_color payee source_color
                 ((if PyStr.nonempty collected_by
                   then with_edge collected_by payee
                   else with_edge right payee)
                    (with_node payee st)))
          else st in
        Ok st
  | _ => Ok st
  end.

(** The loop, from row [i] on. *)
Fixpoint flow_loop (source role : string) (mid_y : pynum)
    (i : nat) (items : list (string * json)) (st : flow_state)
  : result flow_state :=
  match items with
  | [] => Ok st
  | item :: rest =>
      st' <- flow_step source role mid_y i (fst item) (snd item) st ;;
      flow_loop source role mid_y (S i) rest st'
  end.

Definition missing_rights_msg (source region role : string) : string :=
  "Unexpected or missing rights data for " ++ friendly_text role
  ++ " in " ++ friendly_text region
  ++ " for " ++ friendly_text source ++ ". Skipping flowchart.".

Definition flow_title (source region role : string) : string :=
  friendly_text source ++ " (" ++ friendly_text region ++ " - "
  ++ friendly_text role ++ ")".

(** The graph construction of [generate_flowchart], before rendering. *)
Definition build_flow (source role : string) (rights : json) : result flow_state :=
  num_rights <- py_len rights ;;
  let mid_y := mid_y_of num_rights in
  items <- py_items rights ;;
  flow_loop source role mid_y 0 items (flow_init source mid_y).

(** [nx.draw(...)], [plt.title(...)], [st.pyplot(fig)].  The figure is laid
    out by matplotlib when it is shown, and matplotlib can refuse it (a label
    or title whose [$...$] does not parse as mathtext raises [ValueError]);
    that verdict is the parameter [render].  A refused figure is not
    shown. *)
Definition show_figure (render : figure -> result unit) (fig : figure)
  : ui unit :=
  (ui_lift (render fig) ;;; st_pyplot fig)%ui.

Definition generate_flowchart (render : figure -> result unit)
    (source region role : string) (rights : json) : ui unit :=
  if negb (is_dict rights) || negb (truthy rights) then
    st_error (missing_rights_msg source region role)
  else
    (st <- ui_lift (build_flow source role rights) ;;
     colors <- ui_lift (rmap (Dict.index (node_colors st)) (nodes (G st))) ;;
     show_figure render
       (mkFigure (G st) (node_positions st) colors
          (flow_title source region role)))%ui.

(* ================================================================== *)
(** ** 4) Rights details *)

(** The dictionaries [get_rights_data] builds. *)
Record entry : Type := mkEntry {
  Right : string;
  fully_not_applicable : json;
  Collected_By : json;
  How_Received : json;
  Est_Rate : json;
  How_Calculated : json
}.

Definition entry_of (right_key : string) (right_info : jdict) : entry :=
  mkEntry right_key
    (Dict.get right_info "fully_not_applicable" JNull)
    (Dict.get right_info "collected_by" (JStr ""))
    (Dict.get right_info "how_it_is_received" (JStr ""))
    (Dict.get right_info "estimated_rate" (JNum (PFloat 0)))
    (Dict.get right_info "how_it_is_calculated" (JStr "")).

(** The inner loop over one role's rights. *)
Definition collect_right (role_key : string)
    (acc : list entry * list entry) (kv : string * json)
  : list entry * list entry :=
  match snd kv with
  | JObj right_info =>
      let e := entry_of (fst kv) right_info in
      if String.eqb role_key "artist_label" then ((fst acc ++ [e])%list, snd acc)
      else if String.eqb role_key "writer_publisher" then (fst acc, (snd acc ++ [e])%list)
      else acc
  | _ => acc
  end.

(** The outer loop over the roles of a region node. *)
Definition collect_role (acc : list entry * list entry) (kv : string * json)
  : list entry * list entry :=
  match snd kv with
  | JObj role_data => fold_left (collect_right (fst kv)) role_data acc
  | _ => acc
  end.

Definition split_roles (data_node : json) : list entry * list entry :=
  match data_node with
  | JObj dn => fold_left collect_role dn ([], [])
  | _ => ([], [])
  end.

Definition absent_mark : string := "❌".
Definition present_mark : string := "✅".

Definition right_mapping : dict string :=
  [ ("recording_revenues", friendly_text "recording_revenues");
    ("neighboring_rights", friendly_text "neighboring_rights");
    ("performance", friendly_text "performance");
    ("mechanical", friendly_text "mechanical");
    ("sync_fees", friendly_text "sync_fees") ].

Definition raw_key (e : entry) : string :=
  PyStr.replace_space (PyStr.lower (Right e)).

Definition display_key (e : entry) : string :=
  Dict.get right_mapping (raw_key e) (friendly_text (raw_key e)).

(** [v.startswith(p)] on an arbitrary JSON value. *)
Definition py_startswith (v : json) (p : string) : result bool :=
  match v with
  | JStr s => Ok (PyStr.startswith s p)
  | _ => Raise AttributeError
  end.

(** [entry["Collected By"] and not entry["Collected By"].startswith("❌")] *)
Definition collected_by_usable (e : entry) : result bool :=
  if truthy (Collected_By e) then
    sw <- py_startswith (Collected_By e) absent_mark ;; Ok (negb sw)
  else Ok false.

(** One iteration of the loop over [data_list]. *)
Definition table_step (rights_status : dict string) (e : entry)
  : result (dict string) :=
  if truthy (fully_not_applicable e) then Ok rights_status
  else
    usable <- collected_by_usable e ;;
    if usable then Ok (Dict.set (display_key e) present_mark rights_status)
    else Ok rights_status.

Fixpoint table_loop (data_list : list entry) (rights_status : dict string)
  : result (dict string) :=
  match data_list with
  | [] => Ok rights_status
  | e :: rest => rs <- table_step rights_status e ;; table_loop rest rs
  end.

(** The two columns of the resulting [DataFrame]. *)
Record DataFrame : Type := mkDataFrame {
  Rights : list string;
  Applicable : list string
}.

Definition initial_status (rights_of_interest : list string) : dict string :=
  fold_left (fun d r => Dict.set r absent_mark d) rights_of_interest [].

Definition create_rights_table (data_list : list entry)
    (rights_of_interest : list string) : result DataFrame :=
  rights_status <- table_loop data_list (initial_status rights_of_interest) ;;
  applicable <- rmap (Dict.index rights_status) rights_of_interest ;;
  Ok (mkDataFrame rights_of_interest applicable).

Definition df_rows (df : DataFrame) : list (string * string) :=
  combine (Rights df) (Applicable df).

(* ================================================================== *)
(** ** 4-5) Code that reads the global dataset *)

Section Dataset.

Variable ROYALTY_DATA : jdict.

(** Python's [str.lower]. *)
Variable str_lower : string -> string.

Definition get_rights_data (area usage_type location : string)
    (platform : option string) : result (list entry * list entry) :=
  if String.eqb (PyStr.lower area) "ugc" then
    match platform with
    | None => Ok ([], [])
    | Some p =>
        if negb (PyStr.nonempty p) then Ok ([], [])
        else
          n1 <- Dict.index ROYALTY_DATA area ;;
          n2 <- py_index n1 usage_type ;;
          n3 <- py_get n2 p (JObj []) ;;
          data_node <- py_get n3 location (JObj []) ;;
          Ok (split_roles data_node)
    end
  else
    n1 <- Ok (Dict.get ROYALTY_DATA area (JObj [])) ;;
    n2 <- py_get n1 usage_type (JObj []) ;;
    data_node <- py_get n2 location (JObj []) ;;
    Ok (split_roles data_node).

(** The module-level lookup of the rights handed to [generate_flowchart]. *)
Definition selected_rights (category subcategory platform region role : string)
  : result json :=
  if String.eqb (PyStr.lower category) "ugc" then
    n1 <- Dict.index ROYALTY_DATA category ;;
    n2 <- py_index n1 subcategory ;;
    n3 <- py_index n2 platform ;;
    n4 <- py_index n3 region ;;
    py_get n4 role (JObj [])
  else
    n1 <- Dict.index ROYALTY_DATA category ;;
    n2 <- py_index n1 subcategory ;;
    n3 <- py_index n2 region ;;
    py_index n3 role.

(** [region.lower()] ends up in the key, so here Python's [str.lower] is
    the parameter [str_lower] (on text without letters outside A-Z it is
    [PyStr.lower]). *)
Definition usage_key (region role : string) : string :=
  if String.eqb (str_lower region) "us" then
    "us_usage_explainer_" ++ role
  else if String.eqb (str_lower region) "international" then
    "int_usage_explainer_" ++ role
  else
    str_lower region ++ "_usage_explainer_" ++ role.

Definition no_usage_explainer : json := JStr "No usage explainer available.".

Definition usage_text (category subcategory platform region role : string)
  : result json :=
  if String.eqb (PyStr.lower category) "ugc" then
    n1 <- Dict.index ROYALTY_DATA category ;;
    n2 <- py_index n1 subcategory ;;
    n3 <- py_index n2 platform ;;
    py_get n3 (usage_key region role) no_usage_explainer
  else
    n1 <- Dict.index ROYALTY_DATA category ;;
    n2 <- py_index n1 subcategory ;;
    py_get n2 (usage_key region role) no_usage_explainer.

End Dataset.

(* ================================================================== *)
(** ** 5) The selectors of the page *)

(** [list(v.keys())] *)
Definition py_keys (v : json) : result (list string) :=
  match v with
  | JObj d => Ok (Dict.keys d)
  | _ => Raise AttributeError
  end.

(** [[key for key, value in items if isinstance(value, dict)]] *)
Definition mapping_keys (items : jdict) : list string :=
  map fst (filter (fun kv => is_dict (snd kv)) items).

Section Selectors.

Variable ROYALTY_DATA : jdict.

(** The options of each selector, as the page computes them from the
    selections made so far. *)
Definition category_options : list string := Dict.keys ROYALTY_DATA.

Definition source_options (category : string) : result (list string) :=
  n1 <- Dict.index ROYALTY_DATA category ;;
  py_keys n1.

Definition platform_options (category subcategory : string)
  : result (list string) :=
  n1 <- Dict.index ROYALTY_DATA category ;;
  n2 <- py_index n1 subcategory ;;
  items <- py_items n2 ;;
  Ok (mapping_keys items).

Definition ugc_region_options (category subcategory platform : string)
  : result (list string) :=
  n1 <- Dict.index ROYALTY_DATA category ;;
  n2 <- py_index n1 subcategory ;;
  n3 <- py_index n2 platform ;;
  items <- py_items n3 ;;
  Ok (mapping_keys items).

Definition ugc_role_options (category subcategory platform region : string)
  : result (list string) :=
  n1 <- Dict.index ROYALTY_DATA category ;;
  n2 <- py_index n1 subcategory ;;
  n3 <- py_index n2 platform ;;
  n4 <- py_index n3 region ;;
  py_keys n4.

Definition region_options (category subcategory : string)
  : result (list string) :=
  n1 <- Dict.index ROYALTY_DATA category ;;
  n2 <- py_index n1 subcategory ;;
  items <- py_items n2 ;;
  Ok (mapping_keys items).

Definition role_options : list string := ["artist_label"; "writer_publisher"].

End Selectors.

(* ================================================================== *)
(** ** Vocabulary of the statements *)

(** The node selected by category and source, and below it by platform. *)
Definition source_node (data : jdict) (category subcategory : string)
  : result json :=
  n1 <- Dict.index data category ;; py_index n1 subcategory.

Definition platform_node (data : jdict) (category subcategory platform : string)
  : result json :=
  n2 <- source_node data category subcategory ;; py_index n2 platform.

(** A dataset whose only region node lacks the writer/publisher role. *)
Definition artist_only_dataset : jdict :=
  [("non_digital",
    JObj [("physical_sales",
      JObj [("us",
        JObj [("artist_label",
          JObj [("recording_revenues",
            JObj [("collected_by", JStr "Label");
                  ("payee", JStr "Artist")])])])])])].

(** The same shape under the ugc category, with its platform level. *)
Definition ugc_artist_only_dataset : jdict :=
  [("ugc",
    JObj [("organic",
      JObj [("youtube",
        JObj [("us",
          JObj [("artist_label",
            JObj [("recording_revenues",
              JObj [("collected_by", JStr "Label")])])])])])])].

(** A source node holding a generic and a region-specific explainer. *)
Definition explainer_dataset : jdict :=
  [("non_digital",
    JObj [("physical_sales",
      JObj [("usage_explainer", JStr "generic");
            ("us_usage_explainer_artist_label", JStr "prose")])])].

(** Whether the loop over [data_list] marks a right on reaching [e]: no
    truthy not-applicable marker, and a usable [Collected By]. *)
Definition entry_marks (e : entry) : bool :=
  negb (truthy (fully_not_applicable e))
  && match collected_by_usable e with Ok b => b | Raise _ => false end.

Definition marked_by (data_list : list entry) (r : string) : bool :=
  existsb (fun e => entry_marks e && String.eqb (display_key e) r) data_list.





Definition simple_entry (right_key : string) (marker collected_by : json) : entry :=
  mkEntry right_key marker collected_by (JStr "") (JNum (PFloat 0)) (JStr "").

(** The labels one right contributes to the diagram: the collector is the
    trimmed [collected_by]; the payee is the trimmed [payee], or the role
    when that is empty. *)
Definition marker_key : string := "fully_not_applicable".

Definition collector_label (d : jdict) : result string :=
  py_strip (Dict.get d "collected_by" (JStr "")).

Definition payee_label (role : string) (d : jdict) : result string :=
  p <- py_strip (Dict.get d "payee" (JStr "")) ;;
  Ok (if PyStr.nonempty p then p else role).

(** The row of the [i]-th right. *)
Definition right_row (i : nat) : Z := (- Z.of_nat i * y_offset)%Z.

(** The three groups of updates an iteration can make. *)
Definition place_right (source right_key color : string) (i : nat)
    (st : flow_state) : flow_state :=
  with_position right_key (PInt x_offset, PInt (right_row i))
    (with_color right_key color
       (with_edge source right_key (with_node right_key st))).

Definition place_collector (right_key cb : string) (i : nat)
    (st : flow_state) : flow_state :=
  if PyStr.nonempty cb then
    with_position cb (PInt (2 * x_offset), PInt (right_row i))
      (with_color cb source_color
         (with_edge right_key cb (with_node cb st)))
  else st.

Definition place_payee (right_key cb p : string) (mid_y : pynum)
    (st : flow_state) : flow_state :=
  if PyStr.nonempty p then
    with_position p (PInt (3 * x_offset), mid_y)
      (with_color p source_color
         (with_edge (if PyStr.nonempty cb then cb else right_key) p
            (with_node p st)))
  else st.

(** The labels whose colour and position the iteration for [item] assigns:
    the right itself, and off the payee column the collector only. *)
Definition collector_writes (item : string * json) : list string :=
  match snd item with
  | JObj d =>
      if Dict.mem marker_key d then []
      else match collector_label d with
           | Ok cb => if PyStr.nonempty cb then [cb] else []
           | Raise _ => []
           end
  | _ => []
  end.

Definition payee_writes (role : string) (item : string * json) : list string :=
  match snd item with
  | JObj d =>
      if Dict.mem marker_key d then []
      else match payee_label role d with
           | Ok p => if PyStr.nonempty p then [p] else []
           | Raise _ => []
           end
  | _ => []
  end.

Definition right_writes (item : string * json) : list string :=
  match snd item with
  | JObj _ => [fst item]
  | _ => []
  end.

Definition step_writes (role : string) (item : string * json) : list string :=
  (right_writes item ++ collector_writes item ++ payee_writes role item)%list.

Definition position_of (st : flow_state) (n : string) : option position :=
  Dict.lookup n (node_positions st).

Definition color_of (st : flow_state) (n : string) : option string :=
  Dict.lookup n (node_colors st).

(** The colour an iteration gives its right node. *)
Definition right_color (item : string * json) : string :=
  match snd item with
  | JObj d => if Dict.mem marker_key d then inapplicable_color else source_color
  | _ => source_color
  end.

(** A node placed at the point [(x, y)]. *)
Definition at_point (st : flow_state) (n : string) (x y : Q) : Prop :=
  exists p, position_of st n = Some p
            /\ (pynum_value (fst p) == x)%Q /\ (pynum_value (snd p) == y)%Q.

(** The layout as the specification words it, with one spacing [unit]:
    source at [(0, -((n-1) unit)/2)], the [i]-th right at
    [(2 unit, -i unit)] with an edge from the source, every payee at
    [(6 unit, -((n-1) unit)/2)]. *)
Definition layout_as_stated (unit : Q) (source role : string)
    (items : jdict) (st : flow_state) : Prop :=
  let n := inject_Z (Z.of_nat (length items)) in
  let mid := (- ((n - 1) * unit) / 2)%Q in
  at_point st source 0 mid
  /\ (forall i item,
        nth_error items i = Some item ->
        at_point st (fst item) (2 * unit)%Q
          (- inject_Z (Z.of_nat i) * unit)%Q
        /\ In (source, fst item) (edges (G st)))
  /\ (forall item p,
        In item items -> In p (payee_writes role item) ->
        at_point st p (6 * unit)%Q mid).

Definition two_rights : jdict :=
  [("recording_revenues",
    JObj [("collected_by", JStr "Label"); ("payee", JStr "Artist")]);
   ("neighboring_rights",
    JObj [("collected_by", JStr "SoundExchange"); ("payee", JStr "Artist")])].


(** The state a successful construction ends in. *)
Definition flow_of (r : result flow_state) : flow_state :=
  match r with
  | Ok st => st
  | Raise _ => mkFlow Graph.empty [] []
  end.

Definition two_rights_flow : flow_state :=
  Eval vm_compute in
    flow_of (build_flow "interactive_dsp" "artist_label" (JObj two_rights)).

(** The payee rule as the specification words it: the payee node is
    labelled with the [payee] field when that is non-empty, else with the
    role. *)
Definition payee_rule_as_stated : Prop :=
  forall source role right_key d payee st,
    Dict.mem marker_key d = false ->
    Dict.get d "payee" (JStr "") = JStr payee ->
    build_flow source role (JObj [(right_key, JObj d)]) = Ok st ->
    In (if PyStr.nonempty payee then payee else role) (nodes (G st)).


Definition mechanical_only : json :=
  JObj [("mechanical",
         JObj [("collected_by", JStr "PRO"); ("payee", JStr "")])].

(** A detail the loop can process: not a mapping (skipped), or a mapping
    whose [collected_by] and [payee], when present, are strings. *)
Definition detail_well_typed (item : string * json) : Prop :=
  match snd item with
  | JObj d =>
      (exists cb, collector_label d = Ok cb)
      /\ (exists p0, py_strip (Dict.get d "payee" (JStr "")) = Ok p0)
  | _ => True
  end.

(** Every node of the graph under construction has a colour. *)
Definition all_colored (source : string) (st : flow_state) : Prop :=
  In source (nodes (G st))
  /\ forall x, In x (nodes (G st)) -> color_of st x <> None.

(** Whether the loop over [data_list] fails on [e]: the marker does not
    skip the entry and [Collected By] is truthy without being a string. *)
Definition entry_raises (e : entry) : bool :=
  negb (truthy (fully_not_applicable e))
  && truthy (Collected_By e)
  && match Collected_By e with JStr _ => false | _ => true end.

(** The entries one role node contributes, in the order of its rights;
    rights whose detail is not a mapping contribute nothing. *)
Definition role_entries (role_data : json) : list entry :=
  match role_data with
  | JObj rd =>
      flat_map (fun kv => match snd kv with
                          | JObj ri => [entry_of (fst kv) ri]
                          | _ => []
                          end) rd
  | _ => []
  end.

(** The entries found under the role [role_key] of a region node. *)
Definition entries_under (role_key : string) (dn : jdict) : list entry :=
  flat_map (fun kv => if String.eqb (fst kv) role_key
                      then role_entries (snd kv) else []) dn.

(** A value [json.load] can produce: the keys of every mapping in it are
    distinct. *)
Fixpoint distinct_keys (v : json) : Prop :=
  match v with
  | JObj d =>
      NoDup (map fst d)
      /\ (fix all (l : list (string * json)) : Prop :=
            match l with
            | [] => True
            | (_, v') :: l' => distinct_keys v' /\ all l'
            end) d
  | JArr l =>
      (fix all (l : list json) : Prop :=
         match l with
         | [] => True
         | v' :: l' => distinct_keys v' /\ all l'
         end) l
  | _ => True
  end.

(** The region node a selection leads to: below the platform for ugc,
    below the source otherwise. *)
Definition region_node (data : jdict)
    (category subcategory platform region : string) : result json :=
  if String.eqb (PyStr.lower category) "ugc" then
    n3 <- platform_node data category subcategory platform ;;
    py_index n3 region
  else
    n2 <- source_node data category subcategory ;;
    py_index n2 region.

(** A selection the selectors can offer, on the ugc path and off it. *)
Definition offered_ugc (data : jdict)
    (category subcategory platform region role : string) : Prop :=
  In category (category_options data)
  /\ (exists l, source_options data category = Ok l /\ In subcategory l)
  /\ (exists l, platform_options data category subcategory = Ok l
                /\ In platform l)
  /\ (exists l, ugc_region_options data category subcategory platform = Ok l
                /\ In region l)
  /\ (exists l, ugc_role_options data category subcategory platform region
                = Ok l /\ In role l).

Definition offered_standard (data : jdict)
    (category subcategory region role : string) : Prop :=
  In category (category_options data)
  /\ (exists l, source_options data category = Ok l /\ In subcategory l)
  /\ (exists l, region_options data category subcategory = Ok l
                /\ In region l)
  /\ In role role_options.

(** A graph whose nodes and edges are each listed once and whose edges
    join nodes of the graph. *)
Definition graph_wf (g : DiGraph) : Prop :=
  NoDup (nodes g)
  /\ NoDup (edges g)
  /\ forall u v, In (u, v) (edges g) -> In u (nodes g) /\ In v (nodes g).

(** [v] can be reached from [u] along the edges of [g]. *)
Inductive reachable (g : DiGraph) (u : string) : string -> Prop :=
| reach_here : reachable g u u
| reach_step (v w : string) :
    reachable g u v -> In (v, w) (edges g) -> reachable g u w.

(** The rights of a mapping that carry the not-applicable marker. *)
Definition marked_right (items : jdict) (x : string) : Prop :=
  exists d, In (x, JObj d) items /\ Dict.mem marker_key d = true.

(** The points of the four-column grid for [n] rights. *)
Definition on_grid (n : nat) (mid_y : pynum) (p : position) : Prop :=
  p = (PInt 0, mid_y)
  \/ p = (PInt 6, mid_y)
  \/ exists i, (i < n)%nat
               /\ (p = (PInt 2, PInt (-2 * Z.of_nat i))
                   \/ p = (PInt 4, PInt (-2 * Z.of_nat i))).

(** [isinstance(v, str)] *)
Definition is_str (v : json) : bool :=
  match v with JStr _ => true | _ => false end.

(** A detail on which [.strip()] succeeds twice: not a mapping (skipped),
    or a mapping whose [collected_by] and [payee] are strings or absent. *)
Definition detail_is_text (item : string * json) : bool :=
  match snd item with
  | JObj d =>
      is_str (Dict.get d "collected_by" (JStr ""))
      && is_str (Dict.get d "payee" (JStr ""))
  | _ => true
  end.




(* ================================================================== *)
(** * Properties *)

(** ** Dictionary facts *)

Section DictFacts.
Context {V : Type}.

Lemma lookup_set_same (k : string) (v : V) (d : dict V) :
  Dict.lookup k (Dict.set k v d) = Some v.
Proof.
  induction d as [|[k' v'] d IH]; simpl.
  - now rewrite String.eqb_refl.
  - destruct (String.eqb k k') eqn:E; simpl; rewrite E; auto.
Qed.

Lemma lookup_set_other (k k' : string) (v : V) (d : dict V) :
  k' <> k -> Dict.lookup k' (Dict.set k v d) = Dict.lookup k' d.
Proof.
  intros Hne. induction d as [|[k0 v0] d IH]; simpl.
  - apply String.eqb_neq in Hne. now rewrite Hne.
  - destruct (String.eqb k k0) eqn:E; simpl.
    + apply String.eqb_eq in E. subst k0.
      apply String.eqb_neq in Hne. now rewrite Hne.
    + destruct (String.eqb k' k0); auto.
Qed.

Lemma lookup_set (k k' : string) (v : V) (d : dict V) :
  Dict.lookup k' (Dict.set k v d) =
  if String.eqb k' k then Some v else Dict.lookup k' d.
Proof.
  destruct (String.eqb k' k) eqn:E.
  - apply String.eqb_eq in E. subst. apply lookup_set_same.
  - apply String.eqb_neq in E. now apply lookup_set_other.
Qed.

End DictFacts.

Lemma rmap_ok {A B : Type} (f : A -> result B) (g : A -> B) (l : list A) :
  (forall a, In a l -> f a = Ok (g a)) -> rmap f l = Ok (map g l).
Proof.
  induction l as [|a l IH]; intros H; simpl; auto.
  rewrite (H a) by now left. simpl.
  rewrite IH by (intros; apply H; now right). reflexivity.
Qed.

(* ------------------------------------------------------------------ *)
(** ** Loading *)

(** C9: each of the three load errors (missing file, invalid JSON, a root
    that is not a mapping) makes [load_json] return the empty dataset with
    exactly one reported error and no exception. *)
Theorem C9_load_json_fails_softly :
  load_json NoSuchFile = mkUi (Ok []) [StError msg_not_found]
  /\ load_json BadSyntax = mkUi (Ok []) [StError msg_bad_json]
  /\ (forall v, is_dict v = false ->
        load_json (Parsed v) = mkUi (Ok []) [StError msg_bad_root]).
Proof.
  repeat split.
  intros v Hv. destruct v; try reflexivity. discriminate Hv.
Qed.

Lemma C9_load_json_fails_softly_witness :
  is_dict (JArr [JNull]) = false
  /\ load_json (Parsed (JArr [JNull])) = mkUi (Ok []) [StError msg_bad_root].
Proof.
  split; [reflexivity|].
  apply (proj2 (proj2 C9_load_json_fails_softly)). reflexivity.
Defined.

(** A well-formed document is returned as it is, with nothing reported;
    an exception other than the two named in the handlers is not caught. *)
Lemma load_json_success (d : jdict) :
  load_json (Parsed (JObj d)) = mkUi (Ok d) [].
Proof. reflexivity. Qed.

Lemma load_json_other_error : value (load_json OtherFailure) = Raise OtherError.
Proof. reflexivity. Qed.

(* ------------------------------------------------------------------ *)
(** ** The error report of the diagram builder *)

Lemma append_assoc (a b c : string) : (a ++ b) ++ c = a ++ (b ++ c).
Proof. induction a; simpl; congruence. Qed.

Lemma ui_bind_lift_ok {A B : Type} (a : A) (f : A -> ui B) :
  ui_bind (ui_lift (Ok a)) f = f a.
Proof. unfold ui_bind, ui_lift. simpl. now destruct (f a). Qed.

Lemma ui_bind_lift_raise {A B : Type} (e : exn) (f : A -> ui B) :
  ui_bind (ui_lift (Raise e)) f = mkUi (Raise e) [].
Proof. reflexivity. Qed.

(** A figure the renderer accepts is shown; one it refuses is not, and the
    renderer's exception goes on. *)
Lemma show_figure_cases (render : figure -> result unit) (fig : figure) :
  show_figure render fig
  = match render fig with
    | Ok _ => mkUi (Ok tt) [StPyplot fig]
    | Raise e => mkUi (Raise e) []
    end.
Proof. unfold show_figure. now destruct (render fig). Qed.

Lemma generate_flowchart_log (render : figure -> result unit)
    (source region role : string) (rights : json) :
  is_dict rights = true -> truthy rights = true ->
  log (generate_flowchart render source region role rights) = []
  \/ exists fig,
       log (generate_flowchart render source region role rights)
       = [StPyplot fig].
Proof.
  intros Hd Ht. unfold generate_flowchart. rewrite Hd, Ht. simpl.
  destruct (build_flow source role rights) as [st|e];
    [rewrite ui_bind_lift_ok | now left].
  destruct (rmap (Dict.index (node_colors st)) (nodes (G st))) as [cs|e];
    [rewrite ui_bind_lift_ok | now left].
  rewrite show_figure_cases.
  destruct (render _); simpl; eauto.
Qed.

(** C5: when the rights argument is not a mapping or is empty, the builder
    reports the one error "... missing rights data for <role> in <region>
    for <source> ..." (with the friendly labels) and hands no figure to the
    renderer; on every other input it reports no error. *)
Theorem C5_missing_rights_report (render : figure -> result unit)
    (source region role : string) (rights : json) :
  (is_dict rights = false \/ truthy rights = false ->
     generate_flowchart render source region role rights
     = mkUi (Ok tt) [StError (missing_rights_msg source region role)])
  /\ missing_rights_msg source region role
     = "Unexpected or "
       ++ ("missing rights data for " ++ friendly_text role
           ++ " in " ++ friendly_text region
           ++ " for " ++ friendly_text source)
       ++ ". Skipping flowchart."
  /\ (is_dict rights = true -> truthy rights = true ->
      forall msg,
        ~ In (StError msg)
            (log (generate_flowchart render source region role rights))).
Proof.
  split; [|split].
  - intros H. unfold generate_flowchart.
    destruct H as [H|H]; rewrite H; simpl; [reflexivity|].
    now rewrite orb_true_r.
  - unfold missing_rights_msg. rewrite !append_assoc. reflexivity.
  - intros Hd Ht msg Hin.
    destruct (generate_flowchart_log render source region role rights Hd Ht)
      as [E|[fig E]]; rewrite E in Hin; simpl in Hin.
    + exact Hin.
    + destruct Hin as [Hin|[]]. discriminate Hin.
Qed.

Lemma C5_missing_rights_report_witness :
  generate_flowchart (fun _ => Ok tt)
    "physical_sales" "us" "writer_publisher" (JObj [])
  = mkUi (Ok tt)
      [StError "Unexpected or missing rights data for Writer/Publisher in US for Physical Sales. Skipping flowchart."]
  /\ ~ In (StError "x")
        (log (generate_flowchart (fun _ => Ok tt)
                "physical_sales" "us" "writer_publisher"
                (JObj [("mechanical", JObj [])]))).
Proof.
  split.
  - apply (proj1 (C5_missing_rights_report (fun _ => Ok tt)
                    "physical_sales" "us" "writer_publisher" (JObj []))).
    right. reflexivity.
  - apply (proj2 (proj2 (C5_missing_rights_report (fun _ => Ok tt)
                           "physical_sales" "us" "writer_publisher"
                           (JObj [("mechanical", JObj [])]))));
      reflexivity.
Defined.

(* ------------------------------------------------------------------ *)
(** ** The usage explainer *)

(** C4: with [lower] standing for Python's [str.lower], the explainer key
    is "us_usage_explainer_" + role when lower(region) is "us",
    "int_usage_explainer_" + role when it is "international", and
    lower(region) + "_usage_explainer_" + role otherwise, for every region
    string; it is looked up in the platform node for ugc and in the source
    node otherwise, and an absent key yields the literal
    "No usage explainer available." whatever else the node holds. *)
Theorem C4_usage_explainer
    (lower : string -> string)
    (data : jdict) (category subcategory platform region role : string) :
  (lower region = "us" ->
     usage_key lower region role = "us_usage_explainer_" ++ role)
  /\ (lower region = "international" ->
      usage_key lower region role = "int_usage_explainer_" ++ role)
  /\ (lower region <> "us" -> lower region <> "international" ->
      usage_key lower region role
      = lower region ++ "_usage_explainer_" ++ role)
  /\ (forall node,
        PyStr.lower category = "ugc" ->
        platform_node data category subcategory platform = Ok (JObj node) ->
        usage_text data lower category subcategory platform region role
        = Ok (match Dict.lookup (usage_key lower region role) node with
              | Some text => text
              | None => JStr "No usage explainer available."
              end))
  /\ (forall node,
        PyStr.lower category <> "ugc" ->
        source_node data category subcategory = Ok (JObj node) ->
        usage_text data lower category subcategory platform region role
        = Ok (match Dict.lookup (usage_key lower region role) node with
              | Some text => text
              | None => JStr "No usage explainer available."
              end)).
Proof.
  unfold usage_key. repeat split.
  - intros ->. reflexivity.
  - intros ->. reflexivity.
  - intros H1 H2. apply String.eqb_neq in H1, H2. now rewrite H1, H2.
  - intros node Hc Hn. unfold usage_text. rewrite Hc. simpl.
    unfold platform_node, source_node in Hn.
    destruct (Dict.index data category) as [n1|]; simpl in *; [|discriminate].
    destruct (py_index n1 subcategory) as [n2|]; simpl in *; [|discriminate].
    rewrite Hn. reflexivity.
  - intros node Hc Hn. unfold usage_text.
    apply String.eqb_neq in Hc. rewrite Hc.
    unfold source_node in Hn.
    destruct (Dict.index data category) as [n1|]; simpl in *; [|discriminate].
    rewrite Hn. reflexivity.
Qed.

Lemma C4_usage_explainer_witness :
  usage_key PyStr.lower "us" "artist_label" = "us_usage_explainer_artist_label"
  /\ usage_key PyStr.lower "International" "writer_publisher"
     = "int_usage_explainer_writer_publisher"
  /\ usage_key PyStr.lower "canada" "artist_label" = "canada_usage_explainer_artist_label"
  /\ usage_text ugc_artist_only_dataset PyStr.lower
       "ugc" "organic" "youtube" "us" "artist_label"
     = Ok (JStr "No usage explainer available.")
  /\ usage_text explainer_dataset PyStr.lower
       "non_digital" "physical_sales" "" "US" "artist_label"
     = Ok (JStr "prose")
  /\ usage_text explainer_dataset PyStr.lower
       "non_digital" "physical_sales" "" "us" "writer_publisher"
     = Ok (JStr "No usage explainer available.").
Proof.
  split; [|split; [|split; [|split; [|split]]]].
  - apply (proj1 (C4_usage_explainer PyStr.lower [] "" "" "" "us" "artist_label")).
    reflexivity.
  - apply (proj1 (proj2 (C4_usage_explainer PyStr.lower [] "" "" ""
                           "International" "writer_publisher"))).
    reflexivity.
  - apply (proj1 (proj2 (proj2 (C4_usage_explainer PyStr.lower [] "" "" ""
                                  "canada" "artist_label"))));
      vm_compute; discriminate.
  - exact (proj1 (proj2 (proj2 (proj2
             (C4_usage_explainer PyStr.lower ugc_artist_only_dataset
                "ugc" "organic" "youtube" "us" "artist_label"))))
             [("us",
               JObj [("artist_label",
                 JObj [("recording_revenues",
                   JObj [("collected_by", JStr "Label")])])])]
             eq_refl eq_refl).
  - refine (proj2 (proj2 (proj2 (proj2
             (C4_usage_explainer PyStr.lower explainer_dataset
                "non_digital" "physical_sales" "" "US" "artist_label"))))
             [("usage_explainer", JStr "generic");
              ("us_usage_explainer_artist_label", JStr "prose")]
             _ eq_refl).
    vm_compute; discriminate.
  - refine (proj2 (proj2 (proj2 (proj2
             (C4_usage_explainer PyStr.lower explainer_dataset
                "non_digital" "physical_sales" "" "us" "writer_publisher"))))
             [("usage_explainer", JStr "generic");
              ("us_usage_explainer_artist_label", JStr "prose")]
             _ eq_refl).
    vm_compute; discriminate.
Defined.

(* ------------------------------------------------------------------ *)
(** ** Resolving the selection path *)

(** C1: on a dataset whose region node lacks the selected role, the lookup
    of the rights for the diagram raises [KeyError] instead of yielding an
    empty rights node; and [get_rights_data] raises [KeyError] on its ugc
    path when the category key is missing. *)
Theorem C1_missing_key_raises :
  selected_rights artist_only_dataset
    "non_digital" "physical_sales" "" "us" "writer_publisher"
  = Raise KeyError
  /\ selected_rights artist_only_dataset
       "non_digital" "physical_sales" "" "international" "artist_label"
     = Raise KeyError
  /\ get_rights_data artist_only_dataset "ugc" "organic" "us" (Some "youtube")
     = Raise KeyError.
Proof. repeat split. Qed.

(** In general: off the ugc path, a region node that is a mapping without
    the selected role makes the lookup raise. *)
Lemma selected_rights_missing_role_raises
    (data : jdict) (category subcategory platform region role : string)
    (region_node : jdict) :
  PyStr.lower category <> "ugc" ->
  (n2 <- source_node data category subcategory ;; py_index n2 region)
  = Ok (JObj region_node) ->
  Dict.lookup role region_node = None ->
  selected_rights data category subcategory platform region role
  = Raise KeyError.
Proof.
  intros Hc Hn Hr. unfold selected_rights.
  apply String.eqb_neq in Hc. rewrite Hc.
  unfold source_node in Hn.
  destruct (Dict.index data category) as [n1|]; [|discriminate Hn].
  cbn [rbind] in *.
  destruct (py_index n1 subcategory) as [n2|]; [|discriminate Hn].
  cbn [rbind] in *. rewrite Hn. cbn [rbind py_index].
  unfold Dict.index. now rewrite Hr.
Qed.

(** The sibling paths tolerate the same gaps: the ugc lookup of the diagram
    yields an empty mapping for a missing role, and [get_rights_data] off
    the ugc path yields empty lists whichever key is missing. *)
Lemma selected_rights_ugc_missing_role :
  selected_rights ugc_artist_only_dataset
    "ugc" "organic" "youtube" "us" "writer_publisher"
  = Ok (JObj []).
Proof. reflexivity. Qed.

Lemma get_rights_data_standard_missing_keys
    (data : jdict) (area usage_type location : string) (platform : option string) :
  PyStr.lower area <> "ugc" ->
  Dict.lookup area data = None
  \/ (exists n1, Dict.lookup area data = Some (JObj n1)
                 /\ (Dict.lookup usage_type n1 = None
                     \/ exists n2, Dict.lookup usage_type n1 = Some (JObj n2)
                                   /\ Dict.lookup location n2 = None)) ->
  get_rights_data data area usage_type location platform = Ok ([], []).
Proof.
  intros Hne H. unfold get_rights_data.
  apply String.eqb_neq in Hne. rewrite Hne. unfold Dict.get.
  destruct H as [H|[n1 [H1 [H|[n2 [H2 H3]]]]]].
  - rewrite H. reflexivity.
  - rewrite H1. simpl. unfold Dict.get. rewrite H. reflexivity.
  - rewrite H1. simpl. unfold Dict.get. rewrite H2. simpl.
    unfold Dict.get. rewrite H3. reflexivity.
Qed.

(* ------------------------------------------------------------------ *)
(** ** The checklist of rights *)

Lemma table_step_spec (rs : dict string) (e : entry) (rs' : dict string) :
  table_step rs e = Ok rs' ->
  rs' = if entry_marks e then Dict.set (display_key e) present_mark rs else rs.
Proof.
  unfold table_step, entry_marks.
  destruct (truthy (fully_not_applicable e)); simpl.
  - congruence.
  - destruct (collected_by_usable e) as [[|]|]; simpl; congruence.
Qed.

Lemma table_loop_lookup (data_list : list entry) :
  forall rs rs' r,
    table_loop data_list rs = Ok rs' ->
    Dict.lookup r rs' =
    if marked_by data_list r then Some present_mark else Dict.lookup r rs.
Proof.
  induction data_list as [|e rest IH]; intros rs rs' r H; simpl in H.
  - injection H as <-. reflexivity.
  - destruct (table_step rs e) as [rs1|] eqn:E; simpl in H; [|discriminate].
    apply table_step_spec in E. rewrite (IH _ _ r H). simpl.
    destruct (marked_by rest r); [now rewrite orb_true_r|].
    rewrite orb_false_r. subst rs1.
    destruct (entry_marks e); simpl; auto.
    rewrite lookup_set. now rewrite String.eqb_sym.
Qed.


Lemma initial_status_lookup (rights_of_interest : list string) (r : string) :
  In r rights_of_interest ->
  Dict.lookup r (initial_status rights_of_interest) = Some absent_mark.
Proof.
  unfold initial_status.
  assert (forall l (d : dict string),
             In r l \/ Dict.lookup r d = Some absent_mark ->
             Dict.lookup r (fold_left (fun d r => Dict.set r absent_mark d) l d)
             = Some absent_mark) as H.
  { induction l as [|x l IH]; intros d Hd; simpl.
    - destruct Hd as [[]|Hd]; exact Hd.
    - apply IH. rewrite lookup_set.
      destruct (String.eqb r x) eqn:E; [now right|].
      apply String.eqb_neq in E.
      destruct Hd as [[Hd|Hd]|Hd]; [congruence|now left|now right]. }
  intros Hin. apply H. now left.
Qed.

(** The table, in closed form: one row per right of interest, in the
    caller's order, present exactly when some entry marks it. *)
Lemma create_rights_table_spec (data_list : list entry)
    (rights_of_interest : list string) (df : DataFrame) :
  create_rights_table data_list rights_of_interest = Ok df ->
  df = mkDataFrame rights_of_interest
         (map (fun r => if marked_by data_list r
                        then present_mark else absent_mark)
              rights_of_interest).
Proof.
  unfold create_rights_table. intros H.
  destruct (table_loop data_list (initial_status rights_of_interest))
    as [rs|] eqn:E; simpl in H; [|discriminate].
  rewrite (rmap_ok _ (fun r => if marked_by data_list r
                               then present_mark else absent_mark)) in H.
  - simpl in H. congruence.
  - intros r Hin. unfold Dict.index.
    rewrite (table_loop_lookup _ _ _ r E).
    destruct (marked_by data_list r); auto.
    now rewrite initial_status_lookup.
Qed.


Lemma rows_of_map (f : string -> string) (l : list string) (r a : string) :
  In (r, a) (combine l (map f l)) <-> In r l /\ a = f r.
Proof.
  induction l as [|x l IH]; simpl.
  - tauto.
  - rewrite IH. split.
    + intros [H|H]; [injection H as <- <-; auto | tauto].
    + intros [[->|H] ->]; auto.
Qed.



Lemma marks_differ : present_mark <> absent_mark.
Proof. discriminate. Qed.







(* ------------------------------------------------------------------ *)
(** ** The flow diagram: one iteration *)

Lemma flow_step_spec (source role : string) (mid_y : pynum) (i : nat)
    (right_key : string) (d : jdict) (st : flow_state) :
  flow_step source role mid_y i right_key (JObj d) st =
  (cb <- collector_label d ;;
   p <- payee_label role d ;;
   Ok (if Dict.mem marker_key d then
         place_right source right_key inapplicable_color i st
       else
         place_payee right_key cb p mid_y
           (place_collector right_key cb i
              (place_right source right_key source_color i st)))).
Proof.
  unfold flow_step, collector_label, payee_label, marker_key.
  destruct (py_strip (Dict.get d "collected_by" (JStr ""))) as [cb|];
    [|reflexivity].
  destruct (py_strip (Dict.get d "payee" (JStr ""))) as [p0|];
    [|reflexivity].
  cbn [rbind].
  destruct (Dict.mem "fully_not_applicable" d); [reflexivity|].
  unfold place_payee, place_collector, place_right, right_row.
  destruct (PyStr.nonempty cb);
    destruct (PyStr.nonempty (if PyStr.nonempty p0 then p0 else role));
    reflexivity.
Qed.


Lemma flow_loop_app (source role : string) (mid_y : pynum)
    (l1 l2 : list (string * json)) :
  forall i st,
    flow_loop source role mid_y i (l1 ++ l2)%list st =
    (st' <- flow_loop source role mid_y i l1 st ;;
     flow_loop source role mid_y (i + length l1) l2 st').
Proof.
  induction l1 as [|item l1 IH]; intros i st; simpl.
  - now rewrite Nat.add_0_r.
  - destruct (flow_step source role mid_y i (fst item) (snd item) st); simpl;
      [|reflexivity].
    rewrite IH. now rewrite Nat.add_succ_r.
Qed.

(* ------------------------------------------------------------------ *)
(** ** Graph facts *)

Lemma existsb_eqb_In (x : string) (l : list string) :
  existsb (String.eqb x) l = true <-> In x l.
Proof.
  rewrite existsb_exists. split.
  - intros [y [Hy E]]. apply String.eqb_eq in E. now subst.
  - intros H. exists x. split; auto. apply String.eqb_refl.
Qed.

Lemma existsb_eqb_not_In (x : string) (l : list string) :
  ~ In x l -> existsb (String.eqb x) l = false.
Proof.
  intros H. destruct (existsb (String.eqb x) l) eqn:E; auto.
  apply existsb_eqb_In in E. contradiction.
Qed.

Lemma nodes_add_node (x n : string) (g : DiGraph) :
  In x (nodes (Graph.add_node n g)) <-> x = n \/ In x (nodes g).
Proof.
  unfold Graph.add_node, Graph.has_node.
  destruct (existsb (String.eqb n) (nodes g)) eqn:E.
  - apply existsb_eqb_In in E. split; auto. intros [->|H]; auto.
  - simpl. rewrite in_app_iff. simpl. intuition congruence.
Qed.

Lemma edges_add_node (n : string) (g : DiGraph) :
  edges (Graph.add_node n g) = edges g.
Proof. unfold Graph.add_node. now destruct (Graph.has_node n g). Qed.

Lemma has_edge_In (u v : string) (g : DiGraph) :
  Graph.has_edge u v g = true <-> In (u, v) (edges g).
Proof.
  unfold Graph.has_edge. rewrite existsb_exists. split.
  - intros [[a b] [Hin E]]. unfold Graph.edge_eqb in E. simpl in E.
    apply andb_true_iff in E. destruct E as [E1 E2].
    apply String.eqb_eq in E1, E2. now subst.
  - intros H. exists (u, v). split; auto.
    unfold Graph.edge_eqb. simpl. now rewrite !String.eqb_refl.
Qed.

Lemma edges_add_edge (e : string * string) (u v : string) (g : DiGraph) :
  In e (edges (Graph.add_edge u v g)) <-> e = (u, v) \/ In e (edges g).
Proof.
  unfold Graph.add_edge.
  destruct (Graph.has_edge u v (Graph.add_node v (Graph.add_node u g))) eqn:E.
  - apply has_edge_In in E. rewrite !edges_add_node in *.
    split; auto. intros [->|H]; auto.
  - simpl. rewrite in_app_iff, !edges_add_node. simpl. intuition congruence.
Qed.

Lemma nodes_add_edge (x u v : string) (g : DiGraph) :
  In x (nodes (Graph.add_edge u v g)) <-> x = u \/ x = v \/ In x (nodes g).
Proof.
  unfold Graph.add_edge.
  destruct (Graph.has_edge u v (Graph.add_node v (Graph.add_node u g)));
    simpl; rewrite !nodes_add_node; tauto.
Qed.

(* ------------------------------------------------------------------ *)
(** ** What the three groups of updates do *)

Section Placement.
Variables (source right_key : string) (i : nat) (st : flow_state).

Lemma position_place_right (c x : string) :
  position_of (place_right source right_key c i st) x =
  if String.eqb x right_key
  then Some (PInt x_offset, PInt (right_row i)) else position_of st x.
Proof. unfold place_right, position_of. simpl. apply lookup_set. Qed.

Lemma color_place_right (c x : string) :
  color_of (place_right source right_key c i st) x =
  if String.eqb x right_key then Some c else color_of st x.
Proof. unfold place_right, color_of. simpl. apply lookup_set. Qed.

Lemma nodes_place_right (c x : string) :
  In x (nodes (G (place_right source right_key c i st))) <->
  x = source \/ x = right_key \/ In x (nodes (G st)).
Proof.
  unfold place_right. simpl. rewrite nodes_add_edge, nodes_add_node. tauto.
Qed.

Lemma edges_place_right (c : string) (e : string * string) :
  In e (edges (G (place_right source right_key c i st))) <->
  e = (source, right_key) \/ In e (edges (G st)).
Proof.
  unfold place_right. simpl. now rewrite edges_add_edge, edges_add_node.
Qed.

Lemma position_place_collector (cb x : string) :
  position_of (place_collector right_key cb i st) x =
  if PyStr.nonempty cb && String.eqb x cb
  then Some (PInt (2 * x_offset), PInt (right_row i)) else position_of st x.
Proof.
  unfold place_collector, position_of.
  destruct (PyStr.nonempty cb); simpl; auto. apply lookup_set.
Qed.

Lemma color_place_collector (cb x : string) :
  color_of (place_collector right_key cb i st) x =
  if PyStr.nonempty cb && String.eqb x cb
  then Some source_color else color_of st x.
Proof.
  unfold place_collector, color_of.
  destruct (PyStr.nonempty cb); simpl; auto. apply lookup_set.
Qed.

Lemma nodes_place_collector (cb x : string) :
  In x (nodes (G (place_collector right_key cb i st))) <->
  (PyStr.nonempty cb = true /\ (x = right_key \/ x = cb))
  \/ In x (nodes (G st)).
Proof.
  unfold place_collector. destruct (PyStr.nonempty cb); simpl.
  - rewrite nodes_add_edge, nodes_add_node. tauto.
  - intuition discriminate.
Qed.

Lemma edges_place_collector (cb : string) (e : string * string) :
  In e (edges (G (place_collector right_key cb i st))) <->
  (PyStr.nonempty cb = true /\ e = (right_key, cb)) \/ In e (edges (G st)).
Proof.
  unfold place_collector. destruct (PyStr.nonempty cb); simpl.
  - rewrite edges_add_edge, edges_add_node. tauto.
  - intuition discriminate.
Qed.

Lemma position_place_payee (cb p : string) (mid_y : pynum) (x : string) :
  position_of (place_payee right_key cb p mid_y st) x =
  if PyStr.nonempty p && String.eqb x p
  then Some (PInt (3 * x_offset), mid_y) else position_of st x.
Proof.
  unfold place_payee, position_of.
  destruct (PyStr.nonempty p); simpl; auto. apply lookup_set.
Qed.

Lemma color_place_payee (cb p : string) (mid_y : pynum) (x : string) :
  color_of (place_payee right_key cb p mid_y st) x =
  if PyStr.nonempty p && String.eqb x p
  then Some source_color else color_of st x.
Proof.
  unfold place_payee, color_of.
  destruct (PyStr.nonempty p); simpl; auto. apply lookup_set.
Qed.

Lemma nodes_place_payee (cb p : string) (mid_y : pynum) (x : string) :
  In x (nodes (G (place_payee right_key cb p mid_y st))) <->
  (PyStr.nonempty p = true
   /\ (x = (if PyStr.nonempty cb then cb else right_key) \/ x = p))
  \/ In x (nodes (G st)).
Proof.
  unfold place_payee. destruct (PyStr.nonempty p); simpl.
  - rewrite nodes_add_edge, nodes_add_node. tauto.
  - intuition discriminate.
Qed.

Lemma edges_place_payee (cb p : string) (mid_y : pynum) (e : string * string) :
  In e (edges (G (place_payee right_key cb p mid_y st))) <->
  (PyStr.nonempty p = true
   /\ e = (if PyStr.nonempty cb then cb else right_key, p))
  \/ In e (edges (G st)).
Proof.
  unfold place_payee. destruct (PyStr.nonempty p); simpl.
  - rewrite edges_add_edge, edges_add_node. tauto.
  - intuition discriminate.
Qed.

End Placement.

(* ------------------------------------------------------------------ *)
(** ** One iteration, in closed form *)

Ltac step_cases item role H :=
  let r := fresh "r" in
  let v := fresh "v" in
  let d := fresh "d" in
  let cb := fresh "cb" in
  let p := fresh "p" in
  destruct item as [r v];
  unfold payee_writes, collector_writes, right_writes, right_color;
  cbn [fst snd] in *;
  destruct v as [| | | | |d];
  try (cbn in H; injection H as <-; reflexivity);
  rewrite flow_step_spec in H;
  destruct (collector_label d) as [cb|]; [|discriminate H];
  destruct (payee_label role d) as [p|]; [|discriminate H];
  cbn [rbind] in H; injection H as <-;
  destruct (Dict.mem marker_key d).

Section Step.
Variables (source role : string) (mid_y : pynum) (i : nat).
Variables (item : string * json) (st st' : flow_state).
Hypothesis Hstep :
  flow_step source role mid_y i (fst item) (snd item) st = Ok st'.

(** Later writes win: payee over collector over the right itself. *)
Lemma flow_step_position (x : string) :
  position_of st' x =
  if existsb (String.eqb x) (payee_writes role item)
  then Some (PInt (3 * x_offset), mid_y)
  else if existsb (String.eqb x) (collector_writes item)
  then Some (PInt (2 * x_offset), PInt (right_row i))
  else if existsb (String.eqb x) (right_writes item)
  then Some (PInt x_offset, PInt (right_row i))
  else position_of st x.
Proof.
  revert Hstep. intros H. step_cases item role H.
  - rewrite position_place_right. cbn. now rewrite orb_false_r.
  - rewrite position_place_payee, position_place_collector,
      position_place_right.
    destruct (PyStr.nonempty p), (PyStr.nonempty cb); cbn;
      rewrite ?orb_false_r; reflexivity.
Qed.

Lemma flow_step_color (x : string) :
  color_of st' x =
  if existsb (String.eqb x) (payee_writes role item) then Some source_color
  else if existsb (String.eqb x) (collector_writes item) then Some source_color
  else if existsb (String.eqb x) (right_writes item)
  then Some (right_color item)
  else color_of st x.
Proof.
  revert Hstep. intros H. step_cases item role H.
  - rewrite color_place_right. cbn. now rewrite orb_false_r.
  - rewrite color_place_payee, color_place_collector, color_place_right.
    destruct (PyStr.nonempty p), (PyStr.nonempty cb); cbn;
      rewrite ?orb_false_r; reflexivity.
Qed.

Lemma flow_step_edges_mono (e : string * string) :
  In e (edges (G st)) -> In e (edges (G st')).
Proof.
  revert Hstep. intros H He.
  destruct item as [r v]. cbn [fst snd] in H.
  destruct v as [| | | | |d]; try (cbn in H; injection H as <-; exact He).
  rewrite flow_step_spec in H.
  destruct (collector_label d) as [cb|]; [|discriminate H].
  destruct (payee_label role d) as [p|]; [|discriminate H].
  cbn [rbind] in H. injection H as <-.
  destruct (Dict.mem marker_key d).
  - apply edges_place_right. now right.
  - apply edges_place_payee. right. apply edges_place_collector. right.
    apply edges_place_right. now right.
Qed.

Lemma flow_step_nodes_mono (x : string) :
  In x (nodes (G st)) -> In x (nodes (G st')).
Proof.
  revert Hstep. intros H He.
  destruct item as [r v]. cbn [fst snd] in H.
  destruct v as [| | | | |d]; try (cbn in H; injection H as <-; exact He).
  rewrite flow_step_spec in H.
  destruct (collector_label d) as [cb|]; [|discriminate H].
  destruct (payee_label role d) as [p|]; [|discriminate H].
  cbn [rbind] in H. injection H as <-.
  destruct (Dict.mem marker_key d).
  - apply nodes_place_right. tauto.
  - apply nodes_place_payee. right. apply nodes_place_collector. right.
    apply nodes_place_right. tauto.
Qed.

End Step.

Section StepAdds.
Variables (source role : string) (mid_y : pynum) (i : nat).
Variables (right_key : string) (d : jdict) (st st' : flow_state).
Hypothesis Hstep :
  flow_step source role mid_y i right_key (JObj d) st = Ok st'.

Lemma flow_step_adds_right :
  In right_key (nodes (G st')) /\ In (source, right_key) (edges (G st')).
Proof.
  revert Hstep. rewrite flow_step_spec. intros H.
  destruct (collector_label d) as [cb|]; [|discriminate H].
  destruct (payee_label role d) as [p|]; [|discriminate H].
  cbn [rbind] in H. injection H as <-.
  destruct (Dict.mem marker_key d).
  - rewrite nodes_place_right, edges_place_right. tauto.
  - rewrite nodes_place_payee, edges_place_payee, nodes_place_collector,
      edges_place_collector, nodes_place_right, edges_place_right. tauto.
Qed.

Lemma flow_step_adds_chain (cb p : string) :
  Dict.mem marker_key d = false ->
  collector_label d = Ok cb -> payee_label role d = Ok p ->
  (PyStr.nonempty cb = true ->
   In cb (nodes (G st')) /\ In (right_key, cb) (edges (G st')))
  /\ (PyStr.nonempty p = true ->
      In p (nodes (G st'))
      /\ In (if PyStr.nonempty cb then cb else right_key, p) (edges (G st'))).
Proof.
  intros Hm Hcb Hp. revert Hstep. rewrite flow_step_spec, Hcb, Hp, Hm.
  cbn [rbind]. intros H. injection H as <-.
  rewrite !nodes_place_payee, !edges_place_payee, !nodes_place_collector,
    !edges_place_collector.
  split; intros E; rewrite ?E; tauto.
Qed.

End StepAdds.

(* ------------------------------------------------------------------ *)
(** ** The whole loop *)

Section Loop.
Variables (source role : string) (mid_y : pynum).

Lemma flow_loop_edges_mono (e : string * string) (items : jdict) :
  forall i st st',
    flow_loop source role mid_y i items st = Ok st' ->
    In e (edges (G st)) -> In e (edges (G st')).
Proof.
  induction items as [|item rest IH]; intros i st st' H He; simpl in H.
  - now injection H as <-.
  - destruct (flow_step source role mid_y i (fst item) (snd item) st)
      as [st1|] eqn:E; [|discriminate H].
    cbn [rbind] in H. apply (IH _ _ _ H).
    exact (flow_step_edges_mono _ _ _ _ _ _ _ E e He).
Qed.

Lemma flow_loop_nodes_mono (x : string) (items : jdict) :
  forall i st st',
    flow_loop source role mid_y i items st = Ok st' ->
    In x (nodes (G st)) -> In x (nodes (G st')).
Proof.
  induction items as [|item rest IH]; intros i st st' H He; simpl in H.
  - now injection H as <-.
  - destruct (flow_step source role mid_y i (fst item) (snd item) st)
      as [st1|] eqn:E; [|discriminate H].
    cbn [rbind] in H. apply (IH _ _ _ H).
    exact (flow_step_nodes_mono _ _ _ _ _ _ _ E x He).
Qed.

(** A label no iteration assigns keeps its position and colour. *)
Lemma flow_loop_frame (x : string) (items : jdict) :
  (forall item, In item items -> ~ In x (step_writes role item)) ->
  forall i st st',
    flow_loop source role mid_y i items st = Ok st' ->
    position_of st' x = position_of st x /\ color_of st' x = color_of st x.
Proof.
  induction items as [|item rest IH]; intros Hw i st st' H; simpl in H.
  - now injection H as <-.
  - destruct (flow_step source role mid_y i (fst item) (snd item) st)
      as [st1|] eqn:E; [|discriminate H].
    cbn [rbind] in H.
    destruct (IH (fun it Hit => Hw it (or_intror Hit)) _ _ _ H) as [-> ->].
    assert (~ In x (step_writes role item)) as Hx by (apply Hw; now left).
    unfold step_writes in Hx. rewrite !in_app_iff in Hx.
    rewrite (flow_step_position _ _ _ _ _ _ _ E x),
      (flow_step_color _ _ _ _ _ _ _ E x).
    rewrite !existsb_eqb_not_In by tauto. auto.
Qed.

(** A label on the payee column stays there as long as no later iteration
    uses it for a right or a collector. *)
Lemma flow_loop_keeps_payee (x : string) (items : jdict) :
  (forall item, In item items ->
                ~ In x (right_writes item) /\ ~ In x (collector_writes item)) ->
  forall i st st',
    flow_loop source role mid_y i items st = Ok st' ->
    position_of st x = Some (PInt (3 * x_offset), mid_y) ->
    position_of st' x = Some (PInt (3 * x_offset), mid_y).
Proof.
  induction items as [|item rest IH]; intros Hw i st st' H Hx; simpl in H.
  - now injection H as <-.
  - destruct (flow_step source role mid_y i (fst item) (snd item) st)
      as [st1|] eqn:E; [|discriminate H].
    cbn [rbind] in H.
    apply (IH (fun it Hit => Hw it (or_intror Hit)) _ _ _ H).
    rewrite (flow_step_position _ _ _ _ _ _ _ E x).
    destruct (Hw item (or_introl eq_refl)) as [H1 H2].
    rewrite (existsb_eqb_not_In _ _ H1), (existsb_eqb_not_In _ _ H2).
    now destruct (existsb (String.eqb x) (payee_writes role item)).
Qed.

End Loop.

Lemma build_flow_unfold (source role : string) (items : jdict) :
  build_flow source role (JObj items) =
  flow_loop source role (mid_y_of (Z.of_nat (length items))) 0 items
    (flow_init source (mid_y_of (Z.of_nat (length items)))).
Proof. reflexivity. Qed.

Lemma flow_init_facts (source : string) (mid_y : pynum) :
  position_of (flow_init source mid_y) source = Some (PInt 0, mid_y)
  /\ color_of (flow_init source mid_y) source = Some source_color
  /\ nodes (G (flow_init source mid_y)) = [source]
  /\ edges (G (flow_init source mid_y)) = [].
Proof.
  unfold flow_init, position_of, color_of. simpl.
  now rewrite String.eqb_refl.
Qed.

(** The midpoint row is the integer [-(n-1)]. *)
Lemma mid_y_value (n : Z) :
  (pynum_value (mid_y_of n) == inject_Z (- (n - 1)))%Q.
Proof.
  unfold mid_y_of, pynum_value, y_offset, Qeq, Qdiv. simpl. lia.
Qed.

Lemma flow_loop_split (source role : string) (mid_y : pynum)
    (pre : jdict) (item : string * json) (post : jdict) :
  forall i st st',
    flow_loop source role mid_y i (pre ++ item :: post)%list st = Ok st' ->
    exists st1 st2,
      flow_loop source role mid_y i pre st = Ok st1
      /\ flow_step source role mid_y (i + length pre) (fst item) (snd item) st1
         = Ok st2
      /\ flow_loop source role mid_y (S (i + length pre)) post st2 = Ok st'.
Proof.
  intros i st st' H. rewrite flow_loop_app in H.
  destruct (flow_loop source role mid_y i pre st) as [st1|]; [|discriminate H].
  cbn [rbind flow_loop] in H.
  destruct (flow_step source role mid_y (i + length pre) (fst item) (snd item) st1)
    as [st2|] eqn:E; [|discriminate H].
  cbn [rbind] in H. eauto.
Qed.

(* ------------------------------------------------------------------ *)
(** ** The construction succeeds on well-typed details and is drawn *)

Lemma flow_step_total (source role : string) (mid_y : pynum) (i : nat)
    (item : string * json) (st : flow_state) :
  detail_well_typed item ->
  exists st', flow_step source role mid_y i (fst item) (snd item) st = Ok st'.
Proof.
  unfold detail_well_typed. destruct (snd item) as [| | | | |d];
    try (intros _; eexists; reflexivity).
  intros [[cb Hcb] [p0 Hp]]. rewrite flow_step_spec, Hcb.
  unfold payee_label. rewrite Hp. cbn [rbind]. eauto.
Qed.

Lemma flow_loop_total (source role : string) (mid_y : pynum) (items : jdict) :
  Forall detail_well_typed items ->
  forall i st, exists st', flow_loop source role mid_y i items st = Ok st'.
Proof.
  induction 1 as [|item rest Hitem _ IH]; intros i st; simpl; eauto.
  destruct (flow_step_total source role mid_y i item st Hitem) as [st1 ->].
  cbn [rbind]. apply IH.
Qed.

Lemma build_flow_total (source role : string) (items : jdict) :
  Forall detail_well_typed items ->
  exists st, build_flow source role (JObj items) = Ok st.
Proof. intros H. rewrite build_flow_unfold. now apply flow_loop_total. Qed.

Lemma flow_step_nodes_sub (source role : string) (mid_y : pynum) (i : nat)
    (item : string * json) (st st' : flow_state) (x : string) :
  flow_step source role mid_y i (fst item) (snd item) st = Ok st' ->
  In x (nodes (G st')) ->
  In x (nodes (G st)) \/ x = source \/ In x (step_writes role item).
Proof.
  intros H. destruct item as [r v]. unfold step_writes, right_writes,
    collector_writes, payee_writes. cbn [fst snd] in *.
  destruct v as [| | | | |d]; try (cbn in H; injection H as <-; tauto).
  rewrite flow_step_spec in H.
  destruct (collector_label d) as [cb|]; [|discriminate H].
  destruct (payee_label role d) as [p|]; [|discriminate H].
  cbn [rbind] in H. injection H as <-.
  destruct (Dict.mem marker_key d).
  - rewrite nodes_place_right. simpl. intuition (subst; auto).
  - rewrite nodes_place_payee, nodes_place_collector, nodes_place_right.
    rewrite !in_app_iff.
    destruct (PyStr.nonempty cb), (PyStr.nonempty p); simpl;
      intuition (subst; auto; discriminate).
Qed.

Lemma flow_step_all_colored (source role : string) (mid_y : pynum) (i : nat)
    (item : string * json) (st st' : flow_state) :
  flow_step source role mid_y i (fst item) (snd item) st = Ok st' ->
  all_colored source st -> all_colored source st'.
Proof.
  intros H [Hs Hc]. split.
  - exact (flow_step_nodes_mono _ _ _ _ _ _ _ H source Hs).
  - intros x Hx. rewrite (flow_step_color _ _ _ _ _ _ _ H x).
    destruct (existsb (String.eqb x) (payee_writes role item)) eqn:E1;
      [discriminate|].
    destruct (existsb (String.eqb x) (collector_writes item)) eqn:E2;
      [discriminate|].
    destruct (existsb (String.eqb x) (right_writes item)) eqn:E3;
      [discriminate|].
    destruct (flow_step_nodes_sub _ _ _ _ _ _ _ x H Hx) as [H0|[->|H0]];
      auto.
    unfold step_writes in H0. rewrite !in_app_iff in H0.
    rewrite <- !existsb_eqb_In in H0. rewrite E1, E2, E3 in H0.
    intuition discriminate.
Qed.

Lemma flow_loop_all_colored (source role : string) (mid_y : pynum)
    (items : jdict) :
  forall i st st',
    flow_loop source role mid_y i items st = Ok st' ->
    all_colored source st -> all_colored source st'.
Proof.
  induction items as [|item rest IH]; intros i st st' H Hc; simpl in H.
  - now injection H as <-.
  - destruct (flow_step source role mid_y i (fst item) (snd item) st)
      as [st1|] eqn:E; [|discriminate H].
    cbn [rbind] in H. apply (IH _ _ _ H).
    exact (flow_step_all_colored _ _ _ _ _ _ _ E Hc).
Qed.

Lemma rmap_index_total {V : Type} (d : dict V) (l : list string) :
  (forall x, In x l -> Dict.lookup x d <> None) ->
  exists vs, rmap (Dict.index d) l = Ok vs.
Proof.
  induction l as [|x l IH]; intros H; simpl; eauto.
  unfold Dict.index at 1.
  destruct (Dict.lookup x d) as [v|] eqn:E.
  - destruct IH as [vs ->]; [intros; apply H; now right|].
    cbn [rbind]. eauto.
  - exfalso. apply (H x); [now left | exact E].
Qed.

Lemma rmap_index_spec {V : Type} (d : dict V) (l : list string) :
  forall vs, rmap (Dict.index d) l = Ok vs ->
             Forall2 (fun x v => Dict.lookup x d = Some v) l vs.
Proof.
  induction l as [|x l IH]; intros vs H; simpl in H.
  - injection H as <-. constructor.
  - unfold Dict.index at 1 in H.
    destruct (Dict.lookup x d) as [v|] eqn:E; [|discriminate H].
    cbn [rbind] in H.
    destruct (rmap (Dict.index d) l) as [vs'|]; [|discriminate H].
    cbn [rbind] in H. injection H as <-. constructor; auto.
Qed.

(** Once the graph is built and the colours are read, the call is the
    showing of that figure. *)
Lemma generate_flowchart_of_state (render : figure -> result unit)
    (source region role : string) (items : jdict) (st : flow_state)
    (colors : list string) :
  items <> [] ->
  build_flow source role (JObj items) = Ok st ->
  rmap (Dict.index (node_colors st)) (nodes (G st)) = Ok colors ->
  generate_flowchart render source region role (JObj items)
  = show_figure render
      (mkFigure (G st) (node_positions st) colors
         (flow_title source region role)).
Proof.
  intros Hne Hb Hc. unfold generate_flowchart.
  assert (truthy (JObj items) = true) as -> by now destruct items.
  cbn [is_dict negb orb]. rewrite Hb, ui_bind_lift_ok, Hc, ui_bind_lift_ok.
  reflexivity.
Qed.

(** Whenever the construction succeeds on a non-empty mapping, every node
    has a colour, and the figure made of the graph, positions and colours
    built goes to the renderer. *)
Lemma generate_flowchart_draws (source region role : string)
    (items : jdict) (st : flow_state) :
  items <> [] ->
  build_flow source role (JObj items) = Ok st ->
  exists colors,
    rmap (Dict.index (node_colors st)) (nodes (G st)) = Ok colors
    /\ forall render,
         generate_flowchart render source region role (JObj items)
         = show_figure render
             (mkFigure (G st) (node_positions st) colors
                (flow_title source region role)).
Proof.
  intros Hne Hb.
  assert (all_colored source st) as [_ Hc].
  { pose proof Hb as Hb'. rewrite build_flow_unfold in Hb'.
    apply (flow_loop_all_colored _ _ _ _ _ _ _ Hb').
    split.
    - rewrite (proj1 (proj2 (proj2 (flow_init_facts source _)))). now left.
    - intros x Hx.
      rewrite (proj1 (proj2 (proj2 (flow_init_facts source _)))) in Hx.
      destruct Hx as [<-|[]].
      rewrite (proj1 (proj2 (flow_init_facts source _))). discriminate. }
  destruct (rmap_index_total (node_colors st) (nodes (G st)) Hc) as [cs E].
  exists cs. split; [exact E|]. intros render.
  now apply generate_flowchart_of_state.
Qed.

(** A figure is shown only for a non-empty mapping whose construction
    succeeded and whose figure the renderer accepted, and it is the one
    built. *)
Lemma generate_flowchart_figure (render : figure -> result unit)
    (source region role : string) (rights : json) (fig : figure) :
  In (StPyplot fig)
     (log (generate_flowchart render source region role rights)) ->
  exists items st colors,
    rights = JObj items
    /\ build_flow source role (JObj items) = Ok st
    /\ rmap (Dict.index (node_colors st)) (nodes (G st)) = Ok colors
    /\ fig = mkFigure (G st) (node_positions st) colors
               (flow_title source region role)
    /\ render fig = Ok tt.
Proof.
  unfold generate_flowchart.
  destruct rights as [| | | | |items];
    try (cbn; intros [H|[]]; discriminate H).
  destruct items as [|kv items]; [cbn; intros [H|[]]; discriminate H|].
  cbn [is_dict truthy negb orb].
  destruct (build_flow source role (JObj (kv :: items))) as [st|] eqn:Eb;
    [rewrite ui_bind_lift_ok | intros []].
  destruct (rmap (Dict.index (node_colors st)) (nodes (G st)))
    as [colors|] eqn:Ec; [rewrite ui_bind_lift_ok | intros []].
  rewrite show_figure_cases.
  destruct (render _) as [[]|] eqn:Er; [|intros []].
  intros [H|[]]. injection H as <-.
  exists (kv :: items), st, colors. auto.
Qed.

(* ------------------------------------------------------------------ *)
(** ** Loop invariants *)

(** What every iteration keeps, the loop keeps. *)
Lemma flow_loop_invariant (source role : string) (mid_y : pynum)
    (items : jdict) (P : nat -> flow_state -> Prop) :
  (forall pre item post st st',
      items = (pre ++ item :: post)%list ->
      P (length pre) st ->
      flow_step source role mid_y (length pre) (fst item) (snd item) st
      = Ok st' ->
      P (S (length pre)) st') ->
  forall post pre st st',
    items = (pre ++ post)%list ->
    flow_loop source role mid_y (length pre) post st = Ok st' ->
    P (length pre) st -> P (length items) st'.
Proof.
  intros Hstep. induction post as [|item post IH];
    intros pre st st' Hitems H HP; simpl in H.
  - injection H as <-. rewrite Hitems, app_nil_r. exact HP.
  - destruct (flow_step source role mid_y (length pre) (fst item) (snd item) st)
      as [st1|] eqn:E; [|discriminate H].
    cbn [rbind] in H.
    assert (length (pre ++ [item])%list = S (length pre)) as Hlen
        by (rewrite length_app; simpl; lia).
    apply (IH (pre ++ [item])%list st1 st').
    + rewrite Hitems, <- app_assoc. reflexivity.
    + rewrite Hlen. exact H.
    + rewrite Hlen. exact (Hstep pre item post st st1 Hitems HP E).
Qed.

Lemma build_flow_invariant (source role : string) (items : jdict)
    (P : nat -> flow_state -> Prop) (st : flow_state) :
  P 0%nat (flow_init source (mid_y_of (Z.of_nat (length items)))) ->
  (forall pre item post st st',
      items = (pre ++ item :: post)%list ->
      P (length pre) st ->
      flow_step source role (mid_y_of (Z.of_nat (length items)))
        (length pre) (fst item) (snd item) st = Ok st' ->
      P (S (length pre)) st') ->
  build_flow source role (JObj items) = Ok st ->
  P (length items) st.
Proof.
  intros H0 Hstep Hb. rewrite build_flow_unfold in Hb.
  exact (flow_loop_invariant source role _ items P Hstep items [] _ st
           eq_refl Hb H0).
Qed.

(* ------------------------------------------------------------------ *)
(** ** Where the nodes are placed *)

Lemma payee_writes_inv (role : string) (item : string * json) (p : string) :
  In p (payee_writes role item) ->
  exists d, snd item = JObj d /\ Dict.mem marker_key d = false
            /\ payee_label role d = Ok p /\ PyStr.nonempty p = true.
Proof.
  unfold payee_writes. destruct (snd item) as [| | | | |d]; try contradiction.
  destruct (Dict.mem marker_key d) eqn:Em; [contradiction|].
  destruct (payee_label role d) as [p'|] eqn:El; [|contradiction].
  destruct (PyStr.nonempty p') eqn:E; [|contradiction].
  intros [<-|[]]. exists d. auto.
Qed.

Lemma flow_step_ok_labels (source role : string) (mid_y : pynum) (i : nat)
    (right_key : string) (d : jdict) (st st' : flow_state) :
  flow_step source role mid_y i right_key (JObj d) st = Ok st' ->
  exists cb p, collector_label d = Ok cb /\ payee_label role d = Ok p.
Proof.
  rewrite flow_step_spec.
  destruct (collector_label d) as [cb|]; [|discriminate].
  destruct (payee_label role d) as [p|]; [|discriminate]. eauto.
Qed.

Section Positions.
Variables (source role : string) (items : jdict) (st : flow_state).
Hypothesis Hb : build_flow source role (JObj items) = Ok st.

Lemma build_flow_source_position :
  (forall item, In item items -> ~ In source (step_writes role item)) ->
  position_of st source = Some (PInt 0, mid_y_of (Z.of_nat (length items))).
Proof.
  intros Hw. pose proof Hb as H. rewrite build_flow_unfold in H.
  destruct (flow_loop_frame source role _ source items Hw _ _ _ H)
    as [-> _].
  apply flow_init_facts.
Qed.

Lemma build_flow_right_node (pre : jdict) (right_key : string) (d : jdict)
    (post : jdict) :
  items = (pre ++ (right_key, JObj d) :: post)%list ->
  In right_key (nodes (G st)) /\ In (source, right_key) (edges (G st)).
Proof.
  intros Hitems. pose proof Hb as H. rewrite build_flow_unfold, Hitems in H.
  apply flow_loop_split in H. destruct H as (st1 & st2 & _ & H2 & H3).
  cbn [fst snd] in H2.
  destruct (flow_step_adds_right _ _ _ _ _ _ _ _ H2) as [Hn He].
  split; [exact (flow_loop_nodes_mono _ _ _ _ _ _ _ _ H3 Hn)|].
  exact (flow_loop_edges_mono _ _ _ _ _ _ _ _ H3 He).
Qed.

Lemma build_flow_right_position (pre : jdict) (right_key : string)
    (d : jdict) (post : jdict) :
  items = (pre ++ (right_key, JObj d) :: post)%list ->
  ~ In right_key (collector_writes (right_key, JObj d)) ->
  ~ In right_key (payee_writes role (right_key, JObj d)) ->
  (forall item, In item post -> ~ In right_key (step_writes role item)) ->
  position_of st right_key
  = Some (PInt 2, PInt (-2 * Z.of_nat (length pre))).
Proof.
  intros Hitems Hc Hp Hpost.
  pose proof Hb as H. rewrite build_flow_unfold, Hitems in H.
  apply flow_loop_split in H. destruct H as (st1 & st2 & _ & H2 & H3).
  cbn [fst snd] in H2.
  destruct (flow_loop_frame source role _ right_key post Hpost _ _ _ H3)
    as [-> _].
  rewrite (flow_step_position _ _ _ _ (right_key, JObj d) _ _ H2 right_key).
  rewrite (existsb_eqb_not_In _ _ Hc), (existsb_eqb_not_In _ _ Hp).
  cbn [right_writes fst snd existsb]. rewrite String.eqb_refl.
  cbn [orb]. unfold right_row, x_offset, y_offset. do 3 f_equal. lia.
Qed.

Lemma build_flow_payee_position (pre : jdict) (item : string * json)
    (post : jdict) (p : string) :
  items = (pre ++ item :: post)%list ->
  In p (payee_writes role item) ->
  In p (nodes (G st))
  /\ ((forall item', In item' post ->
                     ~ In p (right_writes item')
                     /\ ~ In p (collector_writes item')) ->
      position_of st p
      = Some (PInt 6, mid_y_of (Z.of_nat (length items)))).
Proof.
  intros Hitems Hp. pose proof Hb as H.
  rewrite build_flow_unfold in H.
  set (mid := mid_y_of (Z.of_nat (length items))) in *.
  rewrite Hitems in H.
  apply flow_loop_split in H. destruct H as (st1 & st2 & _ & H2 & H3).
  destruct (payee_writes_inv _ _ _ Hp) as (d & Hd & Hm & Hl & Hne).
  destruct item as [r v]. cbn [fst snd] in *. subst v.
  destruct (flow_step_ok_labels _ _ _ _ _ _ _ _ H2) as (cb & p' & Hcb & _).
  destruct (flow_step_adds_chain _ _ _ _ _ _ _ _ H2 cb p Hm Hcb Hl)
    as [_ Hpay].
  destruct (Hpay Hne) as [Hn _].
  split; [exact (flow_loop_nodes_mono _ _ _ _ _ _ _ _ H3 Hn)|].
  intros Hpost.
  apply (flow_loop_keeps_payee source role mid p post Hpost _ _ _ H3).
  rewrite (flow_step_position _ _ _ _ (r, JObj d) _ _ H2 p).
  now rewrite (proj2 (existsb_eqb_In _ _) Hp).
Qed.

End Positions.

(** Every position written is a point of the grid. *)
Lemma build_flow_on_grid
    (source role : string) (items : jdict) (st : flow_state) :
  build_flow source role (JObj items) = Ok st ->
  forall (x : string) (p : position),
    position_of st x = Some p ->
    on_grid (length items) (mid_y_of (Z.of_nat (length items))) p.
Proof.
  intros Hb.
  apply (build_flow_invariant source role items
           (fun _ st => forall x p, position_of st x = Some p ->
              on_grid (length items)
                (mid_y_of (Z.of_nat (length items))) p) st);
    [| |exact Hb].
  - intros x p. unfold position_of, flow_init. simpl.
    destruct (String.eqb x source); [|discriminate].
    intros Hp. injection Hp as <-. now left.
  - intros pre item post st0 st1 Hitems IH Hstep x p.
    assert (length pre < length items)%nat as Hlt.
    { rewrite Hitems, length_app. simpl. lia. }
    rewrite (flow_step_position _ _ _ _ _ _ _ Hstep x).
    destruct (existsb (String.eqb x) (payee_writes role item)).
    { intros Hp. injection Hp as <-. right. now left. }
    destruct (existsb (String.eqb x) (collector_writes item)).
    { intros Hp. injection Hp as <-. right. right.
      exists (length pre). split; [exact Hlt|]. right.
      unfold right_row, x_offset, y_offset. do 2 f_equal. lia. }
    destruct (existsb (String.eqb x) (right_writes item)); [|apply IH].
    intros Hp. injection Hp as <-. right. right.
    exists (length pre). split; [exact Hlt|]. left.
    unfold right_row, x_offset, y_offset. do 2 f_equal. lia.
Qed.


(* ------------------------------------------------------------------ *)
(** ** Entries that are not mappings *)



(* ------------------------------------------------------------------ *)
(** ** Layout *)

(** C6, as worded, fails: no single spacing [unit] makes the diagram of a
    two-right mapping match the stated coordinates (the second right sits at
    [(2, -2)], which would need [unit = 1] and [unit = 2] at once). *)
Lemma C6_layout_counterexample :
  exists st,
    build_flow "interactive_dsp" "artist_label" (JObj two_rights) = Ok st
    /\ ~ exists unit,
          layout_as_stated unit "interactive_dsp" "artist_label" two_rights st.
Proof.
  eexists. split; [reflexivity|].
  intros [u [_ [H _]]].
  destruct (H 1%nat _ eq_refl) as [[p [Hp [Hx Hy]]] _].
  vm_compute in Hp. injection Hp as <-.
  destruct u as [a b]. unfold Qeq in Hx, Hy. simpl in Hx, Hy.
  destruct a; simpl in Hx, Hy; lia.
Qed.

(** C6, amended: on a non-empty mapping whose details are well typed the
    construction succeeds and its figure (the graph, positions and colours
    built) goes to the renderer.  With the two spacings of the code,
    [x_offset = 2] and
    [y_offset = 2], the midpoint row is [-((n-1) * 2)/2 = -(n-1)]; the source
    is placed at [(0, midpoint)]; the right at index [i] of the mapping gets
    a node, an edge from the source and the position [(2, -2 i)]; every payee
    gets a node and the position [(6, midpoint)], not its right's row.
    Nodes are identified by label, so a position stands as long as no later
    assignment reuses the label in another column. *)
Theorem C6_layout
    (source region role : string) (items : jdict) :
  (items <> [] -> Forall detail_well_typed items ->
   exists st colors,
     build_flow source role (JObj items) = Ok st
     /\ forall render,
          generate_flowchart render source region role (JObj items)
          = show_figure render
              (mkFigure (G st) (node_positions st) colors
                 (flow_title source region role)))
  /\ forall st,
  build_flow source role (JObj items) = Ok st ->
  (pynum_value (mid_y_of (Z.of_nat (length items)))
   == inject_Z (- (Z.of_nat (length items) - 1)))%Q
  /\ ((forall item, In item items -> ~ In source (step_writes role item)) ->
      position_of st source
      = Some (PInt 0, mid_y_of (Z.of_nat (length items))))
  /\ (forall pre right_key d post,
        items = (pre ++ (right_key, JObj d) :: post)%list ->
        In right_key (nodes (G st))
        /\ In (source, right_key) (edges (G st))
        /\ (~ In right_key (collector_writes (right_key, JObj d)) ->
            ~ In right_key (payee_writes role (right_key, JObj d)) ->
            (forall item, In item post ->
                          ~ In right_key (step_writes role item)) ->
            position_of st right_key
            = Some (PInt 2, PInt (-2 * Z.of_nat (length pre)))))
  /\ (forall pre item post p,
        items = (pre ++ item :: post)%list ->
        In p (payee_writes role item) ->
        In p (nodes (G st))
        /\ ((forall item', In item' post ->
                           ~ In p (right_writes item')
                           /\ ~ In p (collector_writes item')) ->
            position_of st p
            = Some (PInt 6, mid_y_of (Z.of_nat (length items))))).
Proof.
  split.
  { intros Hne Hwt.
    destruct (build_flow_total source role items Hwt) as [st Hb].
    destruct (generate_flowchart_draws source region role items st Hne Hb)
      as [colors [_ E]].
    eauto. }
  intros st Hb.
  split; [apply mid_y_value|]. split; [|split].
  - exact (build_flow_source_position _ _ _ _ Hb).
  - intros pre r d post Hitems.
    destruct (build_flow_right_node _ _ _ _ Hb _ _ _ _ Hitems) as [Hn He].
    split; [exact Hn|]. split; [exact He|].
    exact (build_flow_right_position _ _ _ _ Hb _ _ _ _ Hitems).
  - intros pre item post p.
    exact (build_flow_payee_position _ _ _ _ Hb pre item post p).
Qed.

Lemma C6_layout_witness :
  position_of two_rights_flow "interactive_dsp" = Some (PInt 0, mid_y_of 2)
  /\ position_of two_rights_flow "neighboring_rights"
     = Some (PInt 2, PInt (-2))
  /\ In ("interactive_dsp", "neighboring_rights") (edges (G two_rights_flow))
  /\ position_of two_rights_flow "Artist" = Some (PInt 6, mid_y_of 2).
Proof.
  destruct (C6_layout "interactive_dsp" "us" "artist_label" two_rights)
    as [_ H].
  destruct (H two_rights_flow eq_refl) as (_ & Hs & Hr & Hp). clear H.
  split; [|split; [|split]].
  - apply Hs. intros item [<-|[<-|[]]]; vm_compute; intuition discriminate.
  - destruct (Hr [("recording_revenues",
                   JObj [("collected_by", JStr "Label");
                         ("payee", JStr "Artist")])]
                "neighboring_rights"
                [("collected_by", JStr "SoundExchange");
                 ("payee", JStr "Artist")]
                [] eq_refl) as (_ & _ & H).
    apply H.
    + vm_compute; intuition discriminate.
    + vm_compute; intuition discriminate.
    + intros item [].
  - destruct (Hr [("recording_revenues",
                   JObj [("collected_by", JStr "Label");
                         ("payee", JStr "Artist")])]
                "neighboring_rights"
                [("collected_by", JStr "SoundExchange");
                 ("payee", JStr "Artist")]
                [] eq_refl) as (_ & H & _).
    exact H.
  - destruct (Hp [] ("recording_revenues",
                     JObj [("collected_by", JStr "Label");
                           ("payee", JStr "Artist")])
                [("neighboring_rights",
                  JObj [("collected_by", JStr "SoundExchange");
                        ("payee", JStr "Artist")])]
                "Artist" eq_refl (or_introl eq_refl)) as [_ H].
    apply H. intros item [<-|[]]. split; vm_compute; intuition discriminate.
Defined.

(* ------------------------------------------------------------------ *)
(** ** Evaluating the construction for an arbitrary source label *)

Lemma add_node_new (n : string) (ns : list string) (es : list (string * string)) :
  ~ In n ns ->
  Graph.add_node n (mkDiGraph ns es) = mkDiGraph (ns ++ [n])%list es.
Proof.
  intros H. unfold Graph.add_node, Graph.has_node. simpl.
  now rewrite existsb_eqb_not_In.
Qed.

Lemma add_node_old (n : string) (ns : list string) (es : list (string * string)) :
  In n ns -> Graph.add_node n (mkDiGraph ns es) = mkDiGraph ns es.
Proof.
  intros H. unfold Graph.add_node, Graph.has_node. simpl.
  now rewrite (proj2 (existsb_eqb_In _ _) H).
Qed.

Lemma add_edge_new (u v : string) (ns : list string) (es : list (string * string)) :
  In u ns -> In v ns -> ~ In (u, v) es ->
  Graph.add_edge u v (mkDiGraph ns es) = mkDiGraph ns (es ++ [(u, v)])%list.
Proof.
  intros Hu Hv He. unfold Graph.add_edge.
  rewrite (add_node_old u), (add_node_old v) by assumption.
  destruct (Graph.has_edge u v (mkDiGraph ns es)) eqn:E; auto.
  apply has_edge_In in E. contradiction.
Qed.

Lemma set_new {V : Type} (k : string) (v : V) (d : dict V) :
  ~ In k (map fst d) -> Dict.set k v d = (d ++ [(k, v)])%list.
Proof.
  induction d as [|[k' v'] d IH]; simpl; intros H; auto.
  destruct (String.eqb k k') eqn:E.
  - apply String.eqb_eq in E. subst. tauto.
  - rewrite IH by tauto. reflexivity.
Qed.

Lemma index_here {V : Type} (k : string) (v : V) (d : dict V) :
  Dict.index ((k, v) :: d) k = Ok v.
Proof. unfold Dict.index. simpl. now rewrite String.eqb_refl. Qed.

Lemma index_skip {V : Type} (k k' : string) (v : V) (d : dict V) :
  k <> k' -> Dict.index ((k', v) :: d) k = Dict.index d k.
Proof.
  intros H. unfold Dict.index. simpl.
  apply String.eqb_neq in H. now rewrite H.
Qed.

Lemma set_nil {V : Type} (k : string) (v : V) : Dict.set k v [] = [(k, v)].
Proof. reflexivity. Qed.

Lemma set_cons_new {V : Type} (k : string) (v : V) (kv : string * V)
    (d : dict V) :
  ~ In k (map fst (kv :: d)) ->
  Dict.set k v (kv :: d) = ((kv :: d) ++ [(k, v)])%list.
Proof. apply set_new. Qed.

Lemma with_node_mk (n : string) (g : DiGraph) (ps : dict position)
    (cs : dict string) :
  with_node n (mkFlow g ps cs) = mkFlow (Graph.add_node n g) ps cs.
Proof. reflexivity. Qed.

Lemma with_edge_mk (u v : string) (g : DiGraph) (ps : dict position)
    (cs : dict string) :
  with_edge u v (mkFlow g ps cs) = mkFlow (Graph.add_edge u v g) ps cs.
Proof. reflexivity. Qed.

Lemma with_color_mk (n c : string) (g : DiGraph) (ps : dict position)
    (cs : dict string) :
  with_color n c (mkFlow g ps cs) = mkFlow g ps (Dict.set n c cs).
Proof. reflexivity. Qed.

Lemma with_position_mk (n : string) (p : position) (g : DiGraph)
    (ps : dict position) (cs : dict string) :
  with_position n p (mkFlow g ps cs) = mkFlow g (Dict.set n p ps) cs.
Proof. reflexivity. Qed.

Ltac distinct_labels := simpl; intuition (try congruence; try discriminate).

(** Evaluates the updates from the inside out, so that no state is
    duplicated. *)
Ltac graph_eval :=
  unfold place_payee, place_collector, place_right, flow_init, Graph.empty;
  cbn [PyStr.nonempty];
  repeat first
    [ rewrite with_node_mk
    | rewrite with_edge_mk
    | rewrite with_color_mk
    | rewrite with_position_mk
    | rewrite add_node_old by distinct_labels
    | rewrite add_node_new by distinct_labels
    | rewrite add_edge_new by distinct_labels
    | rewrite set_nil
    | rewrite set_cons_new by distinct_labels
    | rewrite index_here
    | rewrite index_skip by distinct_labels
    | progress cbn [app G node_positions node_colors nodes edges
                    rbind rmap ui_bind ui_lift st_pyplot value log] ].



(** The diagram of the single collected right with an empty payee. *)
Lemma mechanical_only_flow (source : string) :
  source <> "mechanical" -> source <> "PRO" -> source <> "artist_label" ->
  build_flow source "artist_label" mechanical_only
  = Ok (mkFlow
          (mkDiGraph [source; "mechanical"; "PRO"; "artist_label"]
             [(source, "mechanical"); ("mechanical", "PRO");
              ("PRO", "artist_label")])
          [(source, (PInt 0, mid_y_of 1));
           ("mechanical", (PInt 2, PInt 0));
           ("PRO", (PInt 4, PInt 0));
           ("artist_label", (PInt 6, mid_y_of 1))]
          [(source, source_color); ("mechanical", source_color);
           ("PRO", source_color); ("artist_label", source_color)]).
Proof.
  intros H1 H2 H3. unfold mechanical_only.
  rewrite build_flow_unfold. cbn [length flow_loop fst snd].
  rewrite flow_step_spec.
  change (collector_label _) with (@Ok string "PRO").
  change (payee_label _ _) with (@Ok string "artist_label").
  change (Dict.mem marker_key _) with false.
  cbn [rbind].
  graph_eval. reflexivity.
Qed.

Lemma mechanical_only_figure (render : figure -> result unit)
    (source region : string) :
  source <> "mechanical" -> source <> "PRO" -> source <> "artist_label" ->
  generate_flowchart render source region "artist_label" mechanical_only
  = show_figure render
      (mkFigure
         (mkDiGraph [source; "mechanical"; "PRO"; "artist_label"]
            [(source, "mechanical"); ("mechanical", "PRO");
             ("PRO", "artist_label")])
         [(source, (PInt 0, mid_y_of 1));
          ("mechanical", (PInt 2, PInt 0));
          ("PRO", (PInt 4, PInt 0));
          ("artist_label", (PInt 6, mid_y_of 1))]
         [source_color; source_color; source_color; source_color]
         (flow_title source region "artist_label")).
Proof.
  intros H1 H2 H3.
  refine (generate_flowchart_of_state render source region "artist_label"
            _ _ _ _ (mechanical_only_flow source H1 H2 H3) _);
    [discriminate|].
  graph_eval. reflexivity.
Qed.

(* ------------------------------------------------------------------ *)
(** ** Details that are not text *)

Lemma py_strip_is_str (v : json) :
  (is_str v = true -> exists s, py_strip v = Ok s)
  /\ (is_str v = false -> py_strip v = Raise AttributeError).
Proof. destruct v; simpl; split; intros H; try discriminate; eauto. Qed.

Lemma flow_step_text (source role : string) (mid_y : pynum) (i : nat)
    (item : string * json) (st : flow_state) :
  if detail_is_text item
  then exists st',
         flow_step source role mid_y i (fst item) (snd item) st = Ok st'
  else flow_step source role mid_y i (fst item) (snd item) st
       = Raise AttributeError.
Proof.
  unfold detail_is_text. destruct (snd item) as [| | | | |d];
    try (eexists; reflexivity).
  rewrite flow_step_spec. unfold collector_label, payee_label.
  destruct (py_strip_is_str (Dict.get d "collected_by" (JStr "")))
    as [C1 C2].
  destruct (py_strip_is_str (Dict.get d "payee" (JStr ""))) as [P1 P2].
  destruct (is_str (Dict.get d "collected_by" (JStr ""))).
  - destruct (C1 eq_refl) as [cb ->]. cbn [rbind andb].
    destruct (is_str (Dict.get d "payee" (JStr ""))).
    + destruct (P1 eq_refl) as [p ->]. cbn [rbind]. eauto.
    + rewrite (P2 eq_refl). reflexivity.
  - rewrite (C2 eq_refl). reflexivity.
Qed.

Lemma flow_loop_text (source role : string) (mid_y : pynum) (items : jdict) :
  forall i st,
    if forallb detail_is_text items
    then exists st', flow_loop source role mid_y i items st = Ok st'
    else flow_loop source role mid_y i items st = Raise AttributeError.
Proof.
  induction items as [|item rest IH]; intros i st; simpl; [eauto|].
  pose proof (flow_step_text source role mid_y i item st) as Hs.
  destruct (detail_is_text item); cbn [andb].
  - destruct Hs as [st1 ->]. cbn [rbind]. apply IH.
  - rewrite Hs. reflexivity.
Qed.

(* ------------------------------------------------------------------ *)
(** ** Inapplicable rights *)




(* ------------------------------------------------------------------ *)
(** ** The payee label *)

(** [strip] also removes the white space beyond the space and the tab: a payee that is a
    no-break space (U+00A0) alone is empty once stripped, and the role is
    taken. *)
Lemma payee_label_no_break_space :
  PyStr.strip (PyStr.bytes [194; 160]%nat) = ""
  /\ payee_label "artist_label" [("payee", JStr (PyStr.bytes [194; 160]%nat))]
     = Ok "artist_label".
Proof. split; reflexivity. Qed.

(** C8, as worded, fails: a [payee] field holding only a space is
    non-empty, yet the payee node is labelled with the role, because the
    field is trimmed before it is tested. *)
Lemma C8_payee_rule_counterexample : ~ payee_rule_as_stated.
Proof.
  intros H.
  specialize (H "interactive_dsp" "artist_label" "mechanical"
                [("collected_by", JStr "PRO"); ("payee", JStr " ")] " "
                _ eq_refl eq_refl eq_refl).
  vm_compute in H. intuition discriminate.
Qed.

(** C8, amended: the construction succeeds on well-typed details; for a
    right without the marker the payee node is labelled
    with the [payee] field trimmed of surrounding white space when that is
    non-empty, and with the role otherwise; the payee node is in the diagram
    with an edge from the collector when the trimmed [collected_by] is
    non-empty and directly from the right otherwise, the collector then
    having its own node and an edge from the right.  For the single right
    [mechanical] collected by "PRO" with an empty payee and the role
    "artist_label" the diagram has exactly four nodes and the three edges
    source -> mechanical -> PRO -> artist_label, and that figure goes to the
    renderer. *)
Theorem C8_payee_label :
  (forall source role items,
      Forall detail_well_typed items ->
      exists st, build_flow source role (JObj items) = Ok st)
  /\ (forall source role items st pre right_key d post cb p,
      build_flow source role (JObj items) = Ok st ->
      items = (pre ++ (right_key, JObj d) :: post)%list ->
      Dict.mem marker_key d = false ->
      collector_label d = Ok cb -> payee_label role d = Ok p ->
      (exists cb0 p0,
          Dict.get d "collected_by" (JStr "") = JStr cb0
          /\ Dict.get d "payee" (JStr "") = JStr p0
          /\ cb = PyStr.strip cb0
          /\ p = if PyStr.nonempty (PyStr.strip p0)
                 then PyStr.strip p0 else role)
      /\ (PyStr.nonempty p = true ->
          In p (nodes (G st))
          /\ In (if PyStr.nonempty cb then cb else right_key, p)
               (edges (G st)))
      /\ (PyStr.nonempty cb = true ->
          In cb (nodes (G st)) /\ In (right_key, cb) (edges (G st))))
  /\ (forall source region,
        source <> "mechanical" -> source <> "PRO" ->
        source <> "artist_label" ->
        build_flow source "artist_label" mechanical_only
        = Ok (mkFlow
                (mkDiGraph [source; "mechanical"; "PRO"; "artist_label"]
                   [(source, "mechanical"); ("mechanical", "PRO");
                    ("PRO", "artist_label")])
                [(source, (PInt 0, mid_y_of 1));
                 ("mechanical", (PInt 2, PInt 0));
                 ("PRO", (PInt 4, PInt 0));
                 ("artist_label", (PInt 6, mid_y_of 1))]
                [(source, source_color); ("mechanical", source_color);
                 ("PRO", source_color); ("artist_label", source_color)])
        /\ forall render,
             generate_flowchart render source region "artist_label"
               mechanical_only
             = show_figure render
                 (mkFigure
                    (mkDiGraph [source; "mechanical"; "PRO"; "artist_label"]
                       [(source, "mechanical"); ("mechanical", "PRO");
                        ("PRO", "artist_label")])
                    [(source, (PInt 0, mid_y_of 1));
                     ("mechanical", (PInt 2, PInt 0));
                     ("PRO", (PInt 4, PInt 0));
                     ("artist_label", (PInt 6, mid_y_of 1))]
                    [source_color; source_color; source_color; source_color]
                    (flow_title source region "artist_label"))).
Proof.
  split; [exact build_flow_total|]. split.
  - intros source role items st pre r d post cb p Hb Hitems Hm Hcb Hp.
    rewrite build_flow_unfold, Hitems in Hb.
    apply flow_loop_split in Hb. destruct Hb as (st1 & st2 & _ & H2 & H3).
    cbn [fst snd] in H2.
    destruct (flow_step_adds_chain _ _ _ _ _ _ _ _ H2 cb p Hm Hcb Hp)
      as [Hc Hpay].
    split; [|split].
    + unfold collector_label, payee_label in Hcb, Hp.
      destruct (Dict.get d "collected_by" (JStr "")) as [| | |cb0| |];
        try discriminate Hcb.
      destruct (Dict.get d "payee" (JStr "")) as [| | |p0| |];
        try discriminate Hp.
      exists cb0, p0. cbn [py_strip rbind] in Hcb, Hp.
      injection Hcb as <-. injection Hp as <-. auto.
    + intros Hne. destruct (Hpay Hne) as [Hn He]. split.
      * exact (flow_loop_nodes_mono _ _ _ _ _ _ _ _ H3 Hn).
      * exact (flow_loop_edges_mono _ _ _ _ _ _ _ _ H3 He).
    + intros Hne. destruct (Hc Hne) as [Hn He]. split.
      * exact (flow_loop_nodes_mono _ _ _ _ _ _ _ _ H3 Hn).
      * exact (flow_loop_edges_mono _ _ _ _ _ _ _ _ H3 He).
  - intros source region H1 H2 H3. split.
    + now apply mechanical_only_flow.
    + intros render. now apply mechanical_only_figure.
Qed.

Lemma C8_payee_label_witness :
  In "Artist" (nodes (G two_rights_flow))
  /\ In ("SoundExchange", "Artist") (edges (G two_rights_flow))
  /\ In ("neighboring_rights", "SoundExchange") (edges (G two_rights_flow))
  /\ log (generate_flowchart (fun _ => Ok tt)
            "interactive_dsp" "us" "artist_label" mechanical_only)
     = [StPyplot
          (mkFigure
             (mkDiGraph ["interactive_dsp"; "mechanical"; "PRO"; "artist_label"]
                [("interactive_dsp", "mechanical"); ("mechanical", "PRO");
                 ("PRO", "artist_label")])
             [("interactive_dsp", (PInt 0, mid_y_of 1));
              ("mechanical", (PInt 2, PInt 0));
              ("PRO", (PInt 4, PInt 0));
              ("artist_label", (PInt 6, mid_y_of 1))]
             ["lightblue"; "lightblue"; "lightblue"; "lightblue"]
             "Interactive DSP (US - Artist/Label)")].
Proof.
  destruct C8_payee_label as (_ & Hgen & Hfig).
  destruct (Hgen "interactive_dsp" "artist_label" two_rights two_rights_flow
              [("recording_revenues",
                JObj [("collected_by", JStr "Label");
                      ("payee", JStr "Artist")])]
              "neighboring_rights"
              [("collected_by", JStr "SoundExchange");
               ("payee", JStr "Artist")]
              [] "SoundExchange" "Artist"
              eq_refl eq_refl eq_refl eq_refl eq_refl)
    as (_ & Hp & Hc).
  split; [exact (proj1 (Hp eq_refl))|].
  split; [exact (proj2 (Hp eq_refl))|].
  split; [exact (proj2 (Hc eq_refl))|].
  destruct (Hfig "interactive_dsp" "us") as [_ E]; try discriminate.
  rewrite (E (fun _ => Ok tt)). reflexivity.
Defined.

(* ================================================================== *)
(** * Further properties of the code *)

(** ** The checklist, in closed form *)

Lemma table_step_raises (rs : dict string) (e : entry) :
  entry_raises e = true -> table_step rs e = Raise AttributeError.
Proof.
  unfold entry_raises, table_step, collected_by_usable.
  destruct (truthy (fully_not_applicable e)); [discriminate|].
  destruct (truthy (Collected_By e)); [|discriminate].
  destruct (Collected_By e); simpl; congruence.
Qed.

Lemma table_step_ok (rs : dict string) (e : entry) :
  entry_raises e = false -> exists rs', table_step rs e = Ok rs'.
Proof.
  unfold entry_raises, table_step, collected_by_usable.
  destruct (truthy (fully_not_applicable e)); [eauto|].
  destruct (truthy (Collected_By e)); [|simpl; eauto].
  destruct (Collected_By e); simpl; try discriminate.
  intros _. destruct (negb (PyStr.startswith s absent_mark)); eauto.
Qed.

Lemma table_loop_raises (data_list : list entry) :
  existsb entry_raises data_list = true ->
  forall rs, table_loop data_list rs = Raise AttributeError.
Proof.
  induction data_list as [|e rest IH]; intros H rs; simpl in *;
    [discriminate|].
  destruct (entry_raises e) eqn:E.
  - now rewrite table_step_raises.
  - destruct (table_step_ok rs e E) as [rs' ->]. simpl. now apply IH.
Qed.

Lemma table_loop_ok (data_list : list entry) :
  existsb entry_raises data_list = false ->
  forall rs, exists rs', table_loop data_list rs = Ok rs'.
Proof.
  induction data_list as [|e rest IH]; intros H rs; simpl in *; eauto.
  apply orb_false_iff in H. destruct H as [E H].
  destruct (table_step_ok rs e E) as [rs' ->]. simpl. now apply IH.
Qed.

(** The whole function: it fails with [AttributeError] when some entry
    fails, and otherwise yields one row per right of interest, present
    exactly when some entry marks it. *)
Lemma create_rights_table_closed_form (data_list : list entry)
    (rights_of_interest : list string) :
  create_rights_table data_list rights_of_interest =
  if existsb entry_raises data_list then Raise AttributeError
  else Ok (mkDataFrame rights_of_interest
             (map (fun r => if marked_by data_list r
                            then present_mark else absent_mark)
                  rights_of_interest)).
Proof.
  destruct (existsb entry_raises data_list) eqn:E.
  - unfold create_rights_table. now rewrite table_loop_raises.
  - destruct (table_loop_ok data_list E (initial_status rights_of_interest))
      as [rs Hrs].
    assert (exists df, create_rights_table data_list rights_of_interest = Ok df)
      as [df Hdf].
    { unfold create_rights_table. rewrite Hrs. simpl.
      rewrite (rmap_ok _ (fun r => if marked_by data_list r
                                   then present_mark else absent_mark)).
      - simpl. eauto.
      - intros r Hin. unfold Dict.index.
        rewrite (table_loop_lookup _ _ _ r Hrs).
        destruct (marked_by data_list r); auto.
        now rewrite initial_status_lookup. }
    rewrite Hdf. f_equal. now apply create_rights_table_spec.
Qed.

(** X1: the only exception [create_rights_table] can raise is
    [AttributeError], and it raises it exactly when some entry without a
    truthy marker has a truthy [Collected By] that is not a string. *)
Theorem X1_table_raises_iff (data_list : list entry)
    (rights_of_interest : list string) :
  (forall x, create_rights_table data_list rights_of_interest = Raise x ->
             x = AttributeError)
  /\ (create_rights_table data_list rights_of_interest = Raise AttributeError
      <-> exists e, In e data_list
                    /\ truthy (fully_not_applicable e) = false
                    /\ truthy (Collected_By e) = true
                    /\ forall s, Collected_By e <> JStr s).
Proof.
  rewrite create_rights_table_closed_form.
  assert (existsb entry_raises data_list = true <->
          exists e, In e data_list
                    /\ truthy (fully_not_applicable e) = false
                    /\ truthy (Collected_By e) = true
                    /\ forall s, Collected_By e <> JStr s) as Hiff.
  { rewrite existsb_exists. split.
    - intros [e [Hin He]]. exists e. split; auto.
      unfold entry_raises in He.
      apply andb_true_iff in He. destruct He as [He H3].
      apply andb_true_iff in He. destruct He as [H1 H2].
      apply negb_true_iff in H1. repeat split; auto.
      intros s Hs. rewrite Hs in H3. discriminate.
    - intros [e (Hin & H1 & H2 & H3)]. exists e. split; auto.
      unfold entry_raises. rewrite H1, H2. simpl.
      destruct (Collected_By e); auto. exfalso. now apply (H3 s). }
  destruct (existsb entry_raises data_list).
  - split; [congruence|]. split; [intros _; now apply Hiff | reflexivity].
  - split; [discriminate|]. split; [discriminate|].
    intros H. apply Hiff in H. discriminate.
Qed.

(** X2: whenever the table is produced it has one cell per right of
    interest, and every cell is one of the two marks. *)
Theorem X2_table_cells (data_list : list entry)
    (rights_of_interest : list string) (df : DataFrame) :
  create_rights_table data_list rights_of_interest = Ok df ->
  length (Applicable df) = length (Rights df)
  /\ Forall (fun a => a = present_mark \/ a = absent_mark) (Applicable df).
Proof.
  rewrite create_rights_table_closed_form.
  destruct (existsb entry_raises data_list); [discriminate|].
  intros H. injection H as <-. simpl. split; [apply length_map|].
  apply Forall_forall. intros a Ha. apply in_map_iff in Ha.
  destruct Ha as [r [<- _]]. destruct (marked_by data_list r); auto.
Qed.

Lemma X2_table_cells_witness :
  length [absent_mark; present_mark]
  = length ["Recording Revenues"; "Mechanical Rights"]
  /\ Forall (fun a => a = present_mark \/ a = absent_mark)
        [absent_mark; present_mark].
Proof.
  exact (X2_table_cells
           [simple_entry "Mechanical" JNull (JStr "PRO")]
           ["Recording Revenues"; "Mechanical Rights"]
           (mkDataFrame ["Recording Revenues"; "Mechanical Rights"]
              [absent_mark; present_mark])
           eq_refl).
Defined.

Lemma existsb_permutation {A : Type} (f : A -> bool) (l l' : list A) :
  Permutation l l' -> existsb f l = existsb f l'.
Proof.
  intros H.
  destruct (existsb f l) eqn:E; destruct (existsb f l') eqn:E'; auto.
  - apply existsb_exists in E. destruct E as [x [Hin Hx]].
    assert (existsb f l' = true) as E2
        by (apply existsb_exists; exists x; split; auto;
            now apply (Permutation_in x H)).
    congruence.
  - apply existsb_exists in E'. destruct E' as [x [Hin Hx]].
    assert (existsb f l = true) as E2
        by (apply existsb_exists; exists x; split; auto;
            now apply (Permutation_in x (Permutation_sym H))).
    congruence.
Qed.

(** X3: the order of the entries in the data list does not matter: two
    data lists that are permutations of each other give the same table, or
    both fail. *)
Theorem X3_table_order_irrelevant (data_list data_list' : list entry)
    (rights_of_interest : list string) :
  Permutation data_list data_list' ->
  create_rights_table data_list rights_of_interest
  = create_rights_table data_list' rights_of_interest.
Proof.
  intros H. rewrite !create_rights_table_closed_form.
  rewrite (existsb_permutation entry_raises _ _ H).
  destruct (existsb entry_raises data_list'); auto.
  do 2 f_equal. apply map_ext. intros r. unfold marked_by.
  now rewrite (existsb_permutation _ _ _ H).
Qed.

Lemma X3_table_order_irrelevant_witness :
  create_rights_table
    [simple_entry "mechanical" (JStr "not tracked") (JStr "PRO");
     simple_entry "Mechanical" JNull (JStr "PRO")]
    ["Mechanical Rights"]
  = create_rights_table
      [simple_entry "Mechanical" JNull (JStr "PRO");
       simple_entry "mechanical" (JStr "not tracked") (JStr "PRO")]
      ["Mechanical Rights"].
Proof.
  apply X3_table_order_irrelevant. apply perm_swap.
Defined.

(** X4: further entries never turn a present right absent: if the table
    of a data list shows a right present, so does the table of any longer
    data list that is produced. *)
Theorem X4_table_monotone (data_list more : list entry)
    (rights_of_interest : list string) (df df' : DataFrame) (r : string) :
  create_rights_table data_list rights_of_interest = Ok df ->
  create_rights_table (data_list ++ more)%list rights_of_interest = Ok df' ->
  In (r, present_mark) (df_rows df) ->
  In (r, present_mark) (df_rows df') /\ ~ In (r, absent_mark) (df_rows df').
Proof.
  intros H H' Hin.
  apply create_rights_table_spec in H, H'. subst df df'.
  unfold df_rows in *. simpl in *.
  apply rows_of_map in Hin. destruct Hin as [Hr Hm].
  assert (marked_by data_list r = true) as E.
  { destruct (marked_by data_list r); auto.
    exfalso. now apply marks_differ. }
  assert (marked_by (data_list ++ more)%list r = true) as E'.
  { unfold marked_by in *. rewrite existsb_app, E. reflexivity. }
  rewrite !rows_of_map, E'. split; auto.
  intros [_ Hc]. now apply marks_differ.
Qed.

Lemma X4_table_monotone_witness :
  In ("Mechanical Rights", present_mark)
     (df_rows (mkDataFrame ["Mechanical Rights"; "Sync Fees"]
                 [present_mark; present_mark])).
Proof.
  exact (proj1 (X4_table_monotone
           [simple_entry "Mechanical" JNull (JStr "PRO")]
           [simple_entry "sync fees" JNull (JStr "Publisher");
            simple_entry "mechanical" (JStr "n/a") (JStr "")]
           ["Mechanical Rights"; "Sync Fees"]
           (mkDataFrame ["Mechanical Rights"; "Sync Fees"]
              [present_mark; absent_mark])
           (mkDataFrame ["Mechanical Rights"; "Sync Fees"]
              [present_mark; present_mark])
           "Mechanical Rights" eq_refl eq_refl (or_introl eq_refl))).
Defined.

(* ------------------------------------------------------------------ *)
(** ** Labels *)

Lemma lookup_some_in {V : Type} (k : string) (v : V) (d : dict V) :
  Dict.lookup k d = Some v -> In (k, v) d.
Proof.
  induction d as [|[k' v'] d IH]; simpl; [discriminate|].
  destruct (String.eqb k k') eqn:E.
  - apply String.eqb_eq in E. intros [= ->]. subst. now left.
  - intros H. right. now apply IH.
Qed.

Lemma lower_char_idempotent (c : ascii) :
  PyStr.lower_char (PyStr.lower_char c) = PyStr.lower_char c.
Proof. destruct c as [[] [] [] [] [] [] [] []]; reflexivity. Qed.

Lemma lower_idempotent (s : string) :
  PyStr.lower (PyStr.lower s) = PyStr.lower s.
Proof.
  induction s as [|c s IH]; simpl; [reflexivity|].
  now rewrite lower_char_idempotent, IH.
Qed.



(** X6: [friendly_text] is idempotent: a label it produced is returned
    unchanged when passed through it again. *)
Theorem X6_friendly_text_idempotent (key : string) :
  friendly_text (friendly_text key) = friendly_text key.
Proof.
  unfold friendly_text at 2 3. unfold Dict.get.
  destruct (Dict.lookup (PyStr.lower key) friendly_mapping) as [v|] eqn:E.
  - apply lookup_some_in in E. unfold friendly_mapping in E. simpl in E.
    repeat (destruct E as [E|E]; [injection E as _ <-; reflexivity|]).
    contradiction.
  - unfold friendly_text, Dict.get. now rewrite E.
Qed.

(* ------------------------------------------------------------------ *)
(** ** The rights lists *)

Lemma collect_right_fold (role_key : string) (rd : jdict) :
  forall acc,
    fold_left (collect_right role_key) rd acc =
    if String.eqb role_key "artist_label"
    then ((fst acc ++ role_entries (JObj rd))%list, snd acc)
    else if String.eqb role_key "writer_publisher"
    then (fst acc, (snd acc ++ role_entries (JObj rd))%list)
    else acc.
Proof.
  induction rd as [|kv rd IH]; intros [a b]; simpl.
  - rewrite !app_nil_r.
    destruct (String.eqb role_key "artist_label"),
      (String.eqb role_key "writer_publisher"); reflexivity.
  - rewrite IH. unfold collect_right.
    destruct (snd kv) as [| | | | |ri]; simpl;
      destruct (String.eqb role_key "artist_label");
      destruct (String.eqb role_key "writer_publisher"); simpl;
      rewrite <- ?app_assoc; reflexivity.
Qed.

Lemma collect_role_fold (dn : jdict) :
  forall acc,
    fold_left collect_role dn acc =
    ((fst acc ++ entries_under "artist_label" dn)%list,
     (snd acc ++ entries_under "writer_publisher" dn)%list).
Proof.
  induction dn as [|kv dn IH]; intros [a b]; simpl.
  - now rewrite !app_nil_r.
  - rewrite IH. unfold collect_role.
    destruct (snd kv) as [| | | | |rd] eqn:Ekv; simpl.
    1-5: destruct (String.eqb (fst kv) "artist_label"),
           (String.eqb (fst kv) "writer_publisher"); reflexivity.
    rewrite collect_right_fold.
    destruct (String.eqb (fst kv) "artist_label") eqn:E1.
    + apply String.eqb_eq in E1. rewrite E1. simpl.
      now rewrite <- app_assoc.
    + destruct (String.eqb (fst kv) "writer_publisher"); simpl;
        rewrite <- ?app_assoc; reflexivity.
Qed.

(** X7: the two lists [get_rights_data] builds from a region node are the
    entries of the rights found under "artist_label" and under
    "writer_publisher", in the order of the node; roles under any other
    key, role nodes that are not mappings and rights whose detail is not a
    mapping contribute nothing; a region node that is not a mapping gives
    two empty lists. *)
Theorem X7_split_roles_closed_form (data_node : json) :
  split_roles data_node =
  match data_node with
  | JObj dn =>
      (entries_under "artist_label" dn, entries_under "writer_publisher" dn)
  | _ => ([], [])
  end.
Proof.
  destruct data_node; try reflexivity.
  unfold split_roles. now rewrite collect_role_fold.
Qed.

(* ------------------------------------------------------------------ *)
(** ** Well-formed documents and lookups *)

Lemma in_keys_lookup {V : Type} (k : string) (d : dict V) :
  In k (map fst d) -> exists v, Dict.lookup k d = Some v.
Proof.
  induction d as [|[k' v'] d IH]; simpl; [contradiction|].
  intros H. destruct (String.eqb k k') eqn:E; eauto.
  apply String.eqb_neq in E. destruct H as [H|H]; [congruence|auto].
Qed.

Lemma lookup_in_keys {V : Type} (k : string) (v : V) (d : dict V) :
  Dict.lookup k d = Some v -> In k (map fst d).
Proof.
  intros H. apply lookup_some_in in H.
  apply in_map_iff. now exists (k, v).
Qed.

Lemma lookup_in_nodup {V : Type} (k : string) (v : V) (d : dict V) :
  NoDup (map fst d) -> In (k, v) d -> Dict.lookup k d = Some v.
Proof.
  induction d as [|[k' v'] d IH]; simpl; [contradiction|].
  intros Hnd Hin. inversion Hnd as [|? ? Hnot Hnd']; subst.
  destruct Hin as [Hin|Hin].
  - injection Hin as -> ->. now rewrite String.eqb_refl.
  - destruct (String.eqb k k') eqn:E; [|auto].
    apply String.eqb_eq in E. subst k'. exfalso. apply Hnot.
    apply in_map_iff. now exists (k, v).
Qed.

Lemma distinct_keys_nodup (d : jdict) :
  distinct_keys (JObj d) -> NoDup (map fst d).
Proof. simpl. tauto. Qed.

Lemma distinct_keys_lookup (d : jdict) (k : string) (v : json) :
  distinct_keys (JObj d) -> Dict.lookup k d = Some v -> distinct_keys v.
Proof.
  intros [_ Hall] Hl. apply lookup_some_in in Hl.
  induction d as [|[k' v'] d IH]; [contradiction|].
  destruct Hall as [Hv Hall]. destruct Hl as [Hl|Hl].
  - injection Hl as _ <-. exact Hv.
  - now apply IH.
Qed.

(** X10: with distinct keys, a key is among the options a selector builds
    from a node exactly when its value in the node is a mapping; the
    string-valued explainer entries are never offered. *)
Theorem X10_options_are_mappings (items : jdict) (k : string) :
  NoDup (map fst items) ->
  (In k (mapping_keys items) <->
   exists d, Dict.lookup k items = Some (JObj d)).
Proof.
  intros Hnd. unfold mapping_keys. rewrite in_map_iff. split.
  - intros [[k' v] [Hk Hin]]. simpl in Hk. subst k'.
    apply filter_In in Hin. destruct Hin as [Hin Hd]. simpl in Hd.
    destruct v as [| | | | |d]; try discriminate.
    exists d. now apply lookup_in_nodup.
  - intros [d Hl]. exists (k, JObj d). split; auto.
    apply filter_In. split; auto. now apply lookup_some_in.
Qed.

Lemma X10_options_are_mappings_witness :
  In "us"
     (mapping_keys
        [("us_usage_explainer_artist_label", JStr "prose");
         ("us", JObj [("artist_label", JObj [])])])
  /\ ~ In "us_usage_explainer_artist_label"
         (mapping_keys
            [("us_usage_explainer_artist_label", JStr "prose");
             ("us", JObj [("artist_label", JObj [])])]).
Proof.
  assert (NoDup (map fst
            [("us_usage_explainer_artist_label", JStr "prose");
             ("us", JObj [("artist_label", JObj [])])])) as Hnd.
  { simpl. repeat constructor; simpl; intuition discriminate. }
  split.
  - apply (proj2 (X10_options_are_mappings _ "us" Hnd)).
    eexists. reflexivity.
  - intros H. apply (proj1 (X10_options_are_mappings _ _ Hnd)) in H.
    destruct H as [d H]. discriminate H.
Defined.

(* ------------------------------------------------------------------ *)
(** ** The rights lists and the diagram come from the same node *)

Lemma entries_under_absent (k : string) (dn : jdict) :
  ~ In k (map fst dn) -> entries_under k dn = [].
Proof.
  induction dn as [|[k' v] dn IH]; simpl; auto.
  intros H. destruct (String.eqb k' k) eqn:E.
  - apply String.eqb_eq in E. tauto.
  - apply IH. tauto.
Qed.

Lemma entries_under_lookup (k : string) (dn : jdict) :
  NoDup (map fst dn) ->
  entries_under k dn =
  match Dict.lookup k dn with
  | Some v => role_entries v
  | None => []
  end.
Proof.
  induction dn as [|[k' v] dn IH]; simpl; auto.
  intros Hnd. inversion Hnd as [|? ? Hnot Hnd']; subst.
  rewrite (String.eqb_sym k k').
  destruct (String.eqb k' k) eqn:E.
  - apply String.eqb_eq in E. subst k'.
    rewrite (entries_under_absent k dn Hnot). apply app_nil_r.
  - now apply IH.
Qed.

Lemma role_entries_rights (items : jdict) :
  map Right (role_entries (JObj items)) = flat_map right_writes items.
Proof.
  induction items as [|[k v] items IH]; simpl; auto.
  unfold right_writes at 1. cbn [fst snd].
  destruct v; simpl; simpl in IH; now rewrite ?IH.
Qed.

Lemma get_rights_data_of_region_node
    (data : jdict) (category subcategory platform region : string)
    (rn : jdict) (platform_arg : option string) :
  region_node data category subcategory platform region = Ok (JObj rn) ->
  (PyStr.lower category = "ugc" ->
   platform_arg = Some platform /\ PyStr.nonempty platform = true) ->
  get_rights_data data category subcategory region platform_arg
  = Ok (split_roles (JObj rn)).
Proof.
  unfold region_node, platform_node, source_node, get_rights_data.
  intros Hrn Hp.
  destruct (String.eqb (PyStr.lower category) "ugc") eqn:Eu.
  - apply String.eqb_eq in Eu. destruct (Hp Eu) as [-> Hne]. rewrite Hne.
    cbn [negb].
    destruct (Dict.index data category) as [n1|]; [|discriminate Hrn].
    cbn [rbind] in *.
    destruct (py_index n1 subcategory) as [n2|]; [|discriminate Hrn].
    cbn [rbind] in *.
    destruct (py_index n2 platform) as [n3|] eqn:E3; [|discriminate Hrn].
    cbn [rbind] in *.
    destruct n2 as [| | | | |d2]; try discriminate E3.
    unfold py_index, Dict.index in E3. cbn [py_get rbind]. unfold Dict.get.
    destruct (Dict.lookup platform d2) as [v|]; [|discriminate E3].
    injection E3 as ->.
    destruct n3 as [| | | | |d3]; try discriminate Hrn.
    unfold py_index, Dict.index in Hrn. cbn [py_get rbind]. unfold Dict.get.
    destruct (Dict.lookup region d3) as [v|]; [|discriminate Hrn].
    now injection Hrn as ->.
  - unfold Dict.index in Hrn. unfold Dict.get at 1.
    destruct (Dict.lookup category data) as [n1|]; [|discriminate Hrn].
    cbn [rbind] in *.
    destruct (py_index n1 subcategory) as [n2|] eqn:E2; [|discriminate Hrn].
    cbn [rbind] in *.
    destruct n1 as [| | | | |d1]; try discriminate E2.
    unfold py_index, Dict.index in E2. cbn [py_get rbind]. unfold Dict.get.
    destruct (Dict.lookup subcategory d1) as [v|]; [|discriminate E2].
    injection E2 as ->.
    destruct n2 as [| | | | |d2]; try discriminate Hrn.
    unfold py_index, Dict.index in Hrn. cbn [py_get rbind]. unfold Dict.get.
    destruct (Dict.lookup region d2) as [v|]; [|discriminate Hrn].
    now injection Hrn as ->.
Qed.

Lemma selected_rights_of_region_node
    (data : jdict) (category subcategory platform region role : string)
    (rn : jdict) :
  region_node data category subcategory platform region = Ok (JObj rn) ->
  selected_rights data category subcategory platform region role =
  if String.eqb (PyStr.lower category) "ugc"
  then Ok (Dict.get rn role (JObj []))
  else Dict.index rn role.
Proof.
  unfold region_node, platform_node, source_node, selected_rights.
  intros Hrn.
  destruct (String.eqb (PyStr.lower category) "ugc").
  - destruct (Dict.index data category) as [n1|]; [|discriminate Hrn].
    cbn [rbind] in *.
    destruct (py_index n1 subcategory) as [n2|]; [|discriminate Hrn].
    cbn [rbind] in *.
    destruct (py_index n2 platform) as [n3|]; [|discriminate Hrn].
    cbn [rbind] in *. rewrite Hrn. reflexivity.
  - destruct (Dict.index data category) as [n1|]; [|discriminate Hrn].
    cbn [rbind] in *.
    destruct (py_index n1 subcategory) as [n2|]; [|discriminate Hrn].
    cbn [rbind] in *. rewrite Hrn. reflexivity.
Qed.

(** X9: the text section and the diagram read the same node.  When the
    selection leads to a region node that is a mapping with distinct keys
    (and, for ugc, the platform is passed and non-empty),
    [get_rights_data] returns two lists, and the list of a role is made of
    the entries of exactly the rights mapping the diagram lookup returns
    for that role; and whenever the diagram of a rights mapping is built,
    every right that mapping contributes to the text has a node in the
    diagram and an edge from the source. *)
Theorem X9_lists_match_diagram
    (data : jdict) (category subcategory platform region : string)
    (rn : jdict) (platform_arg : option string) :
  region_node data category subcategory platform region = Ok (JObj rn) ->
  NoDup (map fst rn) ->
  (PyStr.lower category = "ugc" ->
   platform_arg = Some platform /\ PyStr.nonempty platform = true) ->
  exists master publishing,
    get_rights_data data category subcategory region platform_arg
    = Ok (master, publishing)
    /\ (forall rights,
          selected_rights data category subcategory platform region
            "artist_label" = Ok rights ->
          master = role_entries rights)
    /\ (forall rights,
          selected_rights data category subcategory platform region
            "writer_publisher" = Ok rights ->
          publishing = role_entries rights)
    /\ (forall source role items st r,
          build_flow source role (JObj items) = Ok st ->
          In r (map Right (role_entries (JObj items))) ->
          In r (nodes (G st)) /\ In (source, r) (edges (G st))).
Proof.
  intros Hrn Hnd Hp.
  exists (entries_under "artist_label" rn),
    (entries_under "writer_publisher" rn).
  split; [|split; [|split]].
  - rewrite (get_rights_data_of_region_node _ _ _ _ _ _ _ Hrn Hp).
    unfold split_roles. now rewrite collect_role_fold.
  - intros rights. rewrite (selected_rights_of_region_node _ _ _ _ _ _ _ Hrn).
    rewrite (entries_under_lookup _ _ Hnd). unfold Dict.get, Dict.index.
    destruct (String.eqb (PyStr.lower category) "ugc");
      destruct (Dict.lookup "artist_label" rn);
      intros H; try discriminate H; now injection H as <-.
  - intros rights. rewrite (selected_rights_of_region_node _ _ _ _ _ _ _ Hrn).
    rewrite (entries_under_lookup _ _ Hnd). unfold Dict.get, Dict.index.
    destruct (String.eqb (PyStr.lower category) "ugc");
      destruct (Dict.lookup "writer_publisher" rn);
      intros H; try discriminate H; now injection H as <-.
  - intros source role items st r Hb Hin.
    rewrite role_entries_rights in Hin. apply in_flat_map in Hin.
    destruct Hin as [[k v] [Hitem Hr]]. unfold right_writes in Hr.
    cbn [fst snd] in Hr. destruct v as [| | | | |d]; try contradiction.
    destruct Hr as [<-|[]].
    destruct (in_split _ _ Hitem) as (pre & post & Hsplit).
    exact (build_flow_right_node _ _ _ _ Hb _ _ _ _ Hsplit).
Qed.

Lemma X9_lists_match_diagram_witness :
  exists master publishing,
    get_rights_data artist_only_dataset "non_digital" "physical_sales" "us"
      None = Ok (master, publishing)
    /\ master
       = role_entries
           (JObj [("recording_revenues",
                   JObj [("collected_by", JStr "Label");
                         ("payee", JStr "Artist")])]).
Proof.
  destruct (X9_lists_match_diagram artist_only_dataset
              "non_digital" "physical_sales" "" "us"
              [("artist_label",
                JObj [("recording_revenues",
                       JObj [("collected_by", JStr "Label");
                             ("payee", JStr "Artist")])])]
              None eq_refl)
    as (master & publishing & Hg & Hm & _).
  - repeat constructor; simpl; intuition discriminate.
  - intros H. vm_compute in H. discriminate H.
  - exists master, publishing. split; [exact Hg|].
    apply Hm. reflexivity.
Defined.

(* ------------------------------------------------------------------ *)
(** ** Errors of [get_rights_data] *)

Lemma get_rights_data_standard_form
    (data : jdict) (area usage_type location : string)
    (platform : option string) :
  PyStr.lower area <> "ugc" ->
  get_rights_data data area usage_type location platform =
  match Dict.lookup area data with
  | None => Ok ([], [])
  | Some (JObj n1) =>
      match Dict.lookup usage_type n1 with
      | None => Ok ([], [])
      | Some (JObj n2) =>
          Ok (split_roles (Dict.get n2 location (JObj [])))
      | Some _ => Raise AttributeError
      end
  | Some _ => Raise AttributeError
  end.
Proof.
  intros Hne. unfold get_rights_data.
  apply String.eqb_neq in Hne. rewrite Hne. unfold Dict.get at 1.
  destruct (Dict.lookup area data) as [[| | | | |n1]|]; try reflexivity.
  cbn [rbind py_get]. unfold Dict.get at 1.
  destruct (Dict.lookup usage_type n1) as [[| | | | |n2]|]; reflexivity.
Qed.

(** X8: on the ugc path without a platform (none, or the empty string)
    [get_rights_data] returns two empty lists without reading the dataset.
    Off the ugc path it never raises [KeyError] or [TypeError]: it raises
    only [AttributeError], and exactly when the category node, or the
    source node below it, is present without being a mapping. *)
Theorem X8_get_rights_data_errors
    (data : jdict) (area usage_type location : string)
    (platform : option string) :
  (PyStr.lower area = "ugc" -> platform = None \/ platform = Some "" ->
   get_rights_data data area usage_type location platform = Ok ([], []))
  /\ (PyStr.lower area <> "ugc" ->
      (forall x,
          get_rights_data data area usage_type location platform = Raise x ->
          x = AttributeError)
      /\ (get_rights_data data area usage_type location platform
          = Raise AttributeError
          <-> (exists v, Dict.lookup area data = Some v /\ is_dict v = false)
              \/ (exists n1 v, Dict.lookup area data = Some (JObj n1)
                               /\ Dict.lookup usage_type n1 = Some v
                               /\ is_dict v = false))).
Proof.
  split.
  - unfold get_rights_data. intros -> [->| ->]; reflexivity.
  - intros Hne. rewrite get_rights_data_standard_form by exact Hne.
    destruct (Dict.lookup area data) as [n1|] eqn:E1.
    + destruct n1 as [| | | | |d1];
        try (split; [congruence|];
             split; [intros _; left; eexists; split; reflexivity
                    |intros _; reflexivity]).
      destruct (Dict.lookup usage_type d1) as [n2|] eqn:E2.
      * destruct n2 as [| | | | |d2];
          try (split; [congruence|];
               split; [intros _; right; eexists; eexists;
                       split; [reflexivity|split; [exact E2|reflexivity]]
                      |intros _; reflexivity]).
        split; [discriminate|]. split; [discriminate|].
        intros [[v [Hv Hd]]|[n1 [v [Hn [Hv Hd]]]]].
        -- injection Hv as <-. discriminate Hd.
        -- injection Hn as <-. rewrite E2 in Hv. injection Hv as <-.
           discriminate Hd.
      * split; [discriminate|]. split; [discriminate|].
        intros [[v [Hv Hd]]|[n1 [v [Hn [Hv Hd]]]]].
        -- injection Hv as <-. discriminate Hd.
        -- injection Hn as <-. rewrite E2 in Hv. discriminate Hv.
    + split; [discriminate|]. split; [discriminate|].
      intros [[v [Hv Hd]]|[n1 [v [Hn [Hv Hd]]]]]; discriminate.
Qed.

Lemma X8_get_rights_data_errors_witness :
  get_rights_data artist_only_dataset "UGC" "organic" "us" (Some "")
  = Ok ([], [])
  /\ get_rights_data [("non_digital", JStr "soon")] "non_digital"
       "physical_sales" "us" None
     = Raise AttributeError.
Proof.
  split.
  - apply (proj1 (X8_get_rights_data_errors artist_only_dataset "UGC"
                    "organic" "us" (Some ""))); auto.
  - apply (proj2 (X8_get_rights_data_errors [("non_digital", JStr "soon")]
                    "non_digital" "physical_sales" "us" None)).
    + vm_compute; discriminate.
    + left. eexists. split; reflexivity.
Defined.

(* ------------------------------------------------------------------ *)
(** ** Selections made through the selectors *)

Lemma index_ok {V : Type} (d : dict V) (k : string) (v : V) :
  Dict.index d k = Ok v <-> Dict.lookup k d = Some v.
Proof.
  unfold Dict.index. destruct (Dict.lookup k d); split; congruence.
Qed.

Lemma mapping_option_lookup (d : jdict) (k : string) :
  distinct_keys (JObj d) -> In k (mapping_keys d) ->
  exists d', Dict.lookup k d = Some (JObj d') /\ distinct_keys (JObj d').
Proof.
  intros Hwf Hin. unfold mapping_keys in Hin.
  apply in_map_iff in Hin. destruct Hin as [[k' v] [Hk Hin]].
  simpl in Hk. subst k'.
  apply filter_In in Hin. destruct Hin as [Hin Hd]. simpl in Hd.
  destruct v as [| | | | |d']; try discriminate Hd.
  pose proof (lookup_in_nodup k (JObj d') d (distinct_keys_nodup d Hwf) Hin)
    as Hl.
  exists d'. split; auto.
  exact (distinct_keys_lookup d k _ Hwf Hl).
Qed.

Lemma key_option_lookup (d : jdict) (k : string) :
  distinct_keys (JObj d) -> In k (Dict.keys d) ->
  exists v, Dict.lookup k d = Some v /\ distinct_keys v.
Proof.
  intros Hwf Hin. destruct (in_keys_lookup k d Hin) as [v Hl].
  exists v. split; auto. exact (distinct_keys_lookup d k _ Hwf Hl).
Qed.

(** The source node of an offered selection. *)
Lemma offered_source_node (data : jdict) (category subcategory : string)
    (l : list string) :
  distinct_keys (JObj data) ->
  source_options data category = Ok l -> In subcategory l ->
  exists n2, source_node data category subcategory = Ok n2
             /\ distinct_keys n2.
Proof.
  intros Hwf Hs Hsub. unfold source_options, source_node in *.
  destruct (Dict.index data category) as [n1|] eqn:E1; [|discriminate Hs].
  cbn [rbind] in *. apply index_ok in E1.
  pose proof (distinct_keys_lookup data category n1 Hwf E1) as Hwf1.
  destruct n1 as [| | | | |d1]; try discriminate Hs.
  injection Hs as <-.
  destruct (key_option_lookup d1 subcategory Hwf1 Hsub) as [n2 [E2 Hwf2]].
  exists n2. split; auto. cbn [py_index]. now apply index_ok.
Qed.

(** X11: on the ugc path, for a selection made through the selectors the
    three look-ups into the dataset succeed: the rights lookup returns the
    role node found under the selected region, the usage explainer lookup
    returns a value, and [get_rights_data] returns its two lists.  (The
    call of [generate_flowchart] on the rights found is not covered here: it
    can still raise.) *)
Theorem X11_ugc_lookups_succeed
    (data : jdict) (category subcategory platform region role : string) :
  distinct_keys (JObj data) ->
  PyStr.lower category = "ugc" ->
  offered_ugc data category subcategory platform region role ->
  exists rn rights,
    region_node data category subcategory platform region = Ok (JObj rn)
    /\ Dict.lookup role rn = Some rights
    /\ selected_rights data category subcategory platform region role
       = Ok rights
    /\ (forall lower, exists text,
          usage_text data lower category subcategory platform region role
          = Ok text)
    /\ (exists lists,
          get_rights_data data category subcategory region (Some platform)
          = Ok lists).
Proof.
  intros Hwf Hugc (_ & (ls & Hs & Hsub) & (lp & Hp & Hplat)
                   & (lr & Hr & Hreg) & (lo & Ho & Hrole)).
  destruct (offered_source_node data category subcategory ls Hwf Hs Hsub)
    as [n2 [E2 Hwf2]].
  unfold platform_options, ugc_region_options, ugc_role_options in *.
  unfold source_node in E2.
  destruct (Dict.index data category) as [n1|] eqn:E1; [|discriminate E2].
  cbn [rbind] in *. rewrite E2 in Hp, Hr, Ho. cbn [rbind] in *.
  destruct n2 as [| | | | |d2]; try discriminate Hp.
  injection Hp as <-.
  destruct (mapping_option_lookup d2 platform Hwf2 Hplat)
    as [d3 [E3 Hwf3]].
  cbn [py_index] in Hr, Ho. rewrite (proj2 (index_ok _ _ _) E3) in Hr, Ho.
  cbn [rbind py_items] in Hr. injection Hr as <-.
  destruct (mapping_option_lookup d3 region Hwf3 Hreg) as [rn [E4 Hwf4]].
  cbn [rbind py_index] in Ho. rewrite (proj2 (index_ok _ _ _) E4) in Ho.
  cbn [rbind py_keys] in Ho. injection Ho as <-.
  destruct (key_option_lookup rn role Hwf4 Hrole) as [rights [E5 _]].
  assert (region_node data category subcategory platform region
          = Ok (JObj rn)) as Hrn.
  { unfold region_node, platform_node, source_node.
    rewrite Hugc, E1. cbn [String.eqb rbind]. rewrite E2.
    cbn [rbind py_index]. rewrite (proj2 (index_ok _ _ _) E3).
    cbn [rbind py_index]. now apply index_ok. }
  exists rn, rights. split; [exact Hrn|]. split; [exact E5|].
  split; [|split].
  - rewrite (selected_rights_of_region_node _ _ _ _ _ _ _ Hrn), Hugc.
    cbn [String.eqb]. unfold Dict.get. now rewrite E5.
  - intros lower. unfold usage_text. rewrite Hugc, E1. cbn [String.eqb rbind].
    rewrite E2. cbn [rbind py_index].
    rewrite (proj2 (index_ok _ _ _) E3). cbn [rbind py_get].
    eexists. reflexivity.
  - unfold get_rights_data. rewrite Hugc. cbn [String.eqb].
    destruct (PyStr.nonempty platform); cbn [negb];
      [|eexists; reflexivity].
    rewrite E1. cbn [rbind]. rewrite E2. cbn [rbind py_get].
    unfold Dict.get. rewrite E3. cbn [rbind py_get].
    unfold Dict.get. rewrite E4. eexists. reflexivity.
Qed.

Lemma X11_ugc_lookups_succeed_witness :
  selected_rights ugc_artist_only_dataset
    "ugc" "organic" "youtube" "us" "artist_label"
  = Ok (JObj [("recording_revenues", JObj [("collected_by", JStr "Label")])]).
Proof.
  destruct (X11_ugc_lookups_succeed ugc_artist_only_dataset
              "ugc" "organic" "youtube" "us" "artist_label")
    as (rn & rights & Hrn & Hl & Hs & _).
  - vm_compute. repeat split; repeat constructor; simpl; intuition discriminate.
  - reflexivity.
  - unfold offered_ugc. split; [vm_compute; tauto|].
    repeat split; eexists; (split; [reflexivity | vm_compute; tauto]).
  - rewrite Hs. vm_compute in Hrn. injection Hrn as <-.
    vm_compute in Hl. injection Hl as <-. reflexivity.
Defined.

(** X12: off the ugc path, for a selection made through the selectors,
    the three look-ups into the dataset can fail in one way only: the rights
    lookup raises [KeyError] when the selected region has no node for the
    selected role, and returns that node otherwise; the usage explainer
    lookup returns a value and [get_rights_data] returns its two lists.
    (The call of [generate_flowchart] on the rights found is not covered
    here: it can still raise.) *)
Theorem X12_standard_lookups_fail_only_on_role
    (data : jdict) (category subcategory platform region role : string)
    (platform_arg : option string) :
  distinct_keys (JObj data) ->
  PyStr.lower category <> "ugc" ->
  offered_standard data category subcategory region role ->
  exists rn,
    region_node data category subcategory platform region = Ok (JObj rn)
    /\ selected_rights data category subcategory platform region role
       = match Dict.lookup role rn with
         | Some rights => Ok rights
         | None => Raise KeyError
         end
    /\ (forall lower, exists text,
          usage_text data lower category subcategory platform region role
          = Ok text)
    /\ (exists lists,
          get_rights_data data category subcategory region platform_arg
          = Ok lists).
Proof.
  intros Hwf Hstd (_ & (ls & Hs & Hsub) & (lr & Hr & Hreg) & _).
  destruct (offered_source_node data category subcategory ls Hwf Hs Hsub)
    as [n2 [E2 Hwf2]].
  unfold region_options in Hr. unfold source_node in E2.
  destruct (Dict.index data category) as [n1|] eqn:E1; [|discriminate E2].
  cbn [rbind] in *. rewrite E2 in Hr. cbn [rbind] in Hr.
  destruct n2 as [| | | | |d2]; try discriminate Hr.
  injection Hr as <-.
  destruct (mapping_option_lookup d2 region Hwf2 Hreg) as [rn [E3 Hwf3]].
  pose proof Hstd as Hneq. apply String.eqb_neq in Hneq.
  assert (region_node data category subcategory platform region
          = Ok (JObj rn)) as Hrn.
  { unfold region_node, source_node. rewrite Hneq, E1. cbn [rbind].
    rewrite E2. cbn [rbind py_index]. now apply index_ok. }
  exists rn. split; [exact Hrn|]. split; [|split].
  - rewrite (selected_rights_of_region_node _ _ _ _ _ _ _ Hrn), Hneq.
    reflexivity.
  - intros lower. unfold usage_text. rewrite Hneq, E1. cbn [rbind]. rewrite E2.
    cbn [rbind py_get]. eexists. reflexivity.
  - rewrite (get_rights_data_of_region_node _ _ _ platform _ rn _ Hrn).
    + eexists. reflexivity.
    + intros H. contradiction.
Qed.

Lemma X12_standard_lookups_fail_only_on_role_witness :
  selected_rights artist_only_dataset
    "non_digital" "physical_sales" "" "us" "writer_publisher"
  = Raise KeyError.
Proof.
  destruct (X12_standard_lookups_fail_only_on_role artist_only_dataset
              "non_digital" "physical_sales" "" "us" "writer_publisher" None)
    as (rn & Hrn & Hs & _).
  - vm_compute. repeat split; repeat constructor; simpl; intuition discriminate.
  - vm_compute. discriminate.
  - unfold offered_standard. split; [vm_compute; tauto|].
    split; [eexists; split; [reflexivity | vm_compute; tauto]|].
    split; [eexists; split; [reflexivity | vm_compute; tauto]|].
    vm_compute; tauto.
  - rewrite Hs. vm_compute in Hrn. injection Hrn as <-. reflexivity.
Defined.

(* ------------------------------------------------------------------ *)
(** ** Invariants of the diagram construction *)

(** The graph after an iteration, from the graph before it. *)
Lemma flow_step_graph (source role : string) (mid_y : pynum) (i : nat)
    (item : string * json) (st st' : flow_state) :
  flow_step source role mid_y i (fst item) (snd item) st = Ok st' ->
  G st' = G st
  \/ exists d cb p,
       snd item = JObj d
       /\ collector_label d = Ok cb /\ payee_label role d = Ok p
       /\ let g1 := Graph.add_edge source (fst item)
                      (Graph.add_node (fst item) (G st)) in
          let g2 := if PyStr.nonempty cb
                    then Graph.add_edge (fst item) cb (Graph.add_node cb g1)
                    else g1 in
          let g3 := if PyStr.nonempty p
                    then Graph.add_edge
                           (if PyStr.nonempty cb then cb else fst item) p
                           (Graph.add_node p g2)
                    else g2 in
          G st' = if Dict.mem marker_key d then g1 else g3.
Proof.
  intros H. destruct item as [r v]. cbn [fst snd] in *.
  destruct v as [| | | | |d]; try (cbn in H; injection H as <-; now left).
  rewrite flow_step_spec in H.
  destruct (collector_label d) as [cb|] eqn:Ecb; [|discriminate H].
  destruct (payee_label role d) as [p|] eqn:Ep; [|discriminate H].
  cbn [rbind] in H. injection H as <-.
  right. exists d, cb, p.
  split; [reflexivity|]. split; [exact Ecb|]. split; [exact Ep|].
  cbn zeta. unfold place_payee, place_collector, place_right.
  destruct (Dict.mem marker_key d); [reflexivity|].
  destruct (PyStr.nonempty cb), (PyStr.nonempty p); reflexivity.
Qed.

(** A property of graphs kept by adding a node and by adding an edge is
    kept by an iteration. *)
Lemma flow_step_graph_invariant (Q : DiGraph -> Prop)
    (source role : string) (mid_y : pynum) (i : nat)
    (item : string * json) (st st' : flow_state) :
  (forall n g, Q g -> Q (Graph.add_node n g)) ->
  (forall u v g, Q g -> Q (Graph.add_edge u v g)) ->
  flow_step source role mid_y i (fst item) (snd item) st = Ok st' ->
  Q (G st) -> Q (G st').
Proof.
  intros Hn He H HQ.
  destruct (flow_step_graph _ _ _ _ _ _ _ H)
    as [->|(d & cb & p & _ & _ & _ & ->)]; [exact HQ|].
  cbn zeta.
  destruct (Dict.mem marker_key d), (PyStr.nonempty cb), (PyStr.nonempty p);
    auto 10.
Qed.

Lemma add_node_wf (n : string) (g : DiGraph) :
  graph_wf g -> graph_wf (Graph.add_node n g).
Proof.
  intros (Hn & He & Hends). unfold graph_wf.
  split; [|split].
  - unfold Graph.add_node.
    destruct (Graph.has_node n g) eqn:E; [exact Hn|]. simpl.
    apply NoDup_app; [exact Hn | repeat constructor; simpl; tauto |].
    intros x Hx [<-|[]]. unfold Graph.has_node in E.
    rewrite (proj2 (existsb_eqb_In _ _) Hx) in E. discriminate.
  - now rewrite edges_add_node.
  - intros u v. rewrite edges_add_node, !nodes_add_node.
    intros H. destruct (Hends u v H). tauto.
Qed.

Lemma add_edge_wf (u v : string) (g : DiGraph) :
  graph_wf g -> graph_wf (Graph.add_edge u v g).
Proof.
  intros Hwf. unfold Graph.add_edge.
  pose proof (add_node_wf v _ (add_node_wf u g Hwf)) as Hwf'.
  set (g' := Graph.add_node v (Graph.add_node u g)) in *.
  assert (In u (nodes g') /\ In v (nodes g')) as [Hu Hv].
  { unfold g'. rewrite !nodes_add_node. tauto. }
  destruct (Graph.has_edge u v g') eqn:E; [exact Hwf'|].
  destruct Hwf' as (Hn & He & Hends). unfold graph_wf. simpl.
  split; [exact Hn|]. split.
  - apply NoDup_app; [exact He | repeat constructor; simpl; tauto |].
    intros e Hx [<-|[]]. apply has_edge_In in Hx. congruence.
  - intros a b Hin. apply in_app_iff in Hin.
    destruct Hin as [Hin|[Hin|[]]]; [now apply Hends|].
    injection Hin as <- <-. tauto.
Qed.

Lemma add_node_keeps_head (source n : string) (g : DiGraph) :
  (exists rest, nodes g = source :: rest) ->
  exists rest, nodes (Graph.add_node n g) = source :: rest.
Proof.
  intros [rest Hg]. unfold Graph.add_node.
  destruct (Graph.has_node n g); [eauto|]. simpl. rewrite Hg.
  simpl. eauto.
Qed.

Lemma add_edge_keeps_head (source u v : string) (g : DiGraph) :
  (exists rest, nodes g = source :: rest) ->
  exists rest, nodes (Graph.add_edge u v g) = source :: rest.
Proof.
  intros Hg. unfold Graph.add_edge.
  pose proof (add_node_keeps_head source v _
                (add_node_keeps_head source u g Hg)) as H.
  destruct (Graph.has_edge u v _); exact H.
Qed.

(** X14: the graph handed to the renderer is well formed: the source is
    its first node, no node and no edge is listed twice (a label that
    recurs is one node), and every edge joins two nodes of the graph. *)
Theorem X14_graph_well_formed
    (source role : string) (items : jdict) (st : flow_state) :
  build_flow source role (JObj items) = Ok st ->
  (exists rest, nodes (G st) = source :: rest)
  /\ NoDup (nodes (G st))
  /\ NoDup (edges (G st))
  /\ forall u v, In (u, v) (edges (G st)) ->
                 In u (nodes (G st)) /\ In v (nodes (G st)).
Proof.
  intros Hb.
  assert ((exists rest, nodes (G st) = source :: rest) /\ graph_wf (G st))
    as [Hhead Hwf].
  { apply (build_flow_invariant source role items
             (fun _ st => (exists rest, nodes (G st) = source :: rest)
                          /\ graph_wf (G st)) st); [| |exact Hb].
    - split; [exists []; reflexivity|].
      unfold graph_wf. simpl. repeat split; try constructor; auto;
        try contradiction; constructor.
    - intros pre item post st0 st1 _ [Hh Hw] Hstep. split.
      + apply (flow_step_graph_invariant
                 (fun g => exists rest, nodes g = source :: rest)
                 _ _ _ _ _ _ _
                 (add_node_keeps_head source)
                 (add_edge_keeps_head source) Hstep Hh).
      + exact (flow_step_graph_invariant graph_wf _ _ _ _ _ _ _
                 add_node_wf add_edge_wf Hstep Hw). }
  split; [exact Hhead|]. exact Hwf.
Qed.

Lemma X14_graph_well_formed_witness :
  NoDup (nodes (G two_rights_flow))
  /\ (In ("Label", "Artist") (edges (G two_rights_flow)) ->
      In "Label" (nodes (G two_rights_flow))
      /\ In "Artist" (nodes (G two_rights_flow))).
Proof.
  destruct (X14_graph_well_formed "interactive_dsp" "artist_label"
              two_rights two_rights_flow eq_refl) as (_ & Hn & _ & He).
  split; [exact Hn|]. exact (He "Label" "Artist").
Defined.

(* ------------------------------------------------------------------ *)
(** ** Size of the diagram *)

Lemma add_node_present (n : string) (g : DiGraph) :
  In n (nodes g) -> Graph.add_node n g = g.
Proof.
  intros H. unfold Graph.add_node, Graph.has_node.
  now rewrite (proj2 (existsb_eqb_In _ _) H).
Qed.

(** [G.add_node(v); G.add_edge(u, v)] from a node [u] of the graph adds at
    most one node and at most one edge. *)
Lemma link_size (u v : string) (g : DiGraph) :
  In u (nodes g) ->
  let g' := Graph.add_edge u v (Graph.add_node v g) in
  (length (nodes g') <= S (length (nodes g)))%nat
  /\ (length (edges g') <= S (length (edges g)))%nat
  /\ (forall x, In x (nodes g) -> In x (nodes g'))
  /\ In v (nodes g').
Proof.
  intros Hu g'.
  assert (forall x, In x (nodes g) -> In x (nodes g')) as Hmono.
  { intros x Hx. unfold g'. rewrite nodes_add_edge, nodes_add_node. tauto. }
  assert (In v (nodes g')) as Hv.
  { unfold g'. rewrite nodes_add_edge. tauto. }
  assert (length (nodes (Graph.add_node v g)) <= S (length (nodes g)))%nat
    as Hn.
  { unfold Graph.add_node. destruct (Graph.has_node v g); simpl; [lia|].
    rewrite length_app. simpl. lia. }
  assert (In u (nodes (Graph.add_node v g))) as Hu'
      by (rewrite nodes_add_node; tauto).
  assert (In v (nodes (Graph.add_node v g))) as Hv'
      by (rewrite nodes_add_node; tauto).
  split; [|split; [|split; [exact Hmono | exact Hv]]].
  - unfold g', Graph.add_edge.
    rewrite (add_node_present u _ Hu'), (add_node_present v _ Hv').
    destruct (Graph.has_edge u v (Graph.add_node v g)); simpl; exact Hn.
  - unfold g', Graph.add_edge.
    rewrite (add_node_present u _ Hu'), (add_node_present v _ Hv').
    destruct (Graph.has_edge u v (Graph.add_node v g)); simpl;
      rewrite ?length_app, ?edges_add_node; simpl; lia.
Qed.

Lemma flow_step_size (source role : string) (mid_y : pynum) (i : nat)
    (item : string * json) (st st' : flow_state) :
  flow_step source role mid_y i (fst item) (snd item) st = Ok st' ->
  In source (nodes (G st)) ->
  In source (nodes (G st'))
  /\ (length (nodes (G st')) <= length (nodes (G st)) + 3)%nat
  /\ (length (edges (G st')) <= length (edges (G st)) + 3)%nat.
Proof.
  intros H Hs.
  destruct (flow_step_graph _ _ _ _ _ _ _ H)
    as [->|(d & cb & p & _ & _ & _ & E)].
  { split; [exact Hs | split; lia]. }
  cbn zeta in E. rewrite E. clear E H.
  destruct (link_size source (fst item) (G st) Hs) as (N1 & E1 & M1 & I1).
  cbn zeta in N1, E1, M1, I1.
  set (g1 := Graph.add_edge source (fst item)
               (Graph.add_node (fst item) (G st))) in *.
  clearbody g1. pose proof (M1 _ Hs) as S1.
  destruct (Dict.mem marker_key d).
  { split; [exact S1 | split; lia]. }
  destruct (PyStr.nonempty cb).
  - destruct (link_size (fst item) cb g1 I1) as (N2 & E2 & M2 & I2).
    cbn zeta in N2, E2, M2, I2.
    set (g2 := Graph.add_edge (fst item) cb (Graph.add_node cb g1)) in *.
    clearbody g2. pose proof (M2 _ S1) as S2.
    destruct (PyStr.nonempty p).
    + destruct (link_size cb p g2 I2) as (N3 & E3 & M3 & I3).
      cbn zeta in N3, E3, M3, I3.
      set (g3 := Graph.add_edge cb p (Graph.add_node p g2)) in *.
      clearbody g3. split; [exact (M3 _ S2) | split; lia].
    + split; [exact S2 | split; lia].
  - destruct (PyStr.nonempty p).
    + destruct (link_size (fst item) p g1 I1) as (N3 & E3 & M3 & I3).
      cbn zeta in N3, E3, M3, I3.
      set (g3 := Graph.add_edge (fst item) p (Graph.add_node p g1)) in *.
      clearbody g3. split; [exact (M3 _ S1) | split; lia].
    + split; [exact S1 | split; lia].
Qed.

(** X15: the diagram of [n] rights has the source node and at most three
    more nodes per right, and at most three edges per right. *)
Theorem X15_diagram_size
    (source role : string) (items : jdict) (st : flow_state) :
  build_flow source role (JObj items) = Ok st ->
  In source (nodes (G st))
  /\ (1 <= length (nodes (G st)) <= 1 + 3 * length items)%nat
  /\ (length (edges (G st)) <= 3 * length items)%nat.
Proof.
  intros Hb.
  assert (In source (nodes (G st))
          /\ (length (nodes (G st)) <= 1 + 3 * length items)%nat
          /\ (length (edges (G st)) <= 3 * length items)%nat)
    as (Hs & Hn & He).
  { apply (build_flow_invariant source role items
             (fun k st => In source (nodes (G st))
                          /\ (length (nodes (G st)) <= 1 + 3 * k)%nat
                          /\ (length (edges (G st)) <= 3 * k)%nat) st);
      [| |exact Hb].
    - simpl. split; [now left | split; lia].
    - intros pre item post st0 st1 _ (Hs & Hn & He) Hstep.
      destruct (flow_step_size _ _ _ _ _ _ _ Hstep Hs) as (Hs' & Hn' & He').
      split; [exact Hs' | split; lia]. }
  split; [exact Hs|]. split; [|exact He]. split; [|exact Hn].
  destruct (nodes (G st)); [contradiction|simpl; lia].
Qed.

Lemma X15_diagram_size_witness :
  (length (nodes (G two_rights_flow)) <= 7)%nat
  /\ (length (edges (G two_rights_flow)) <= 6)%nat.
Proof.
  destruct (X15_diagram_size "interactive_dsp" "artist_label"
              two_rights two_rights_flow eq_refl) as (_ & [_ Hn] & He).
  split; [exact Hn | exact He].
Defined.

(* ------------------------------------------------------------------ *)
(** ** Every node can be reached from the source *)

Lemma reachable_mono (g g' : DiGraph) (u x : string) :
  (forall e, In e (edges g) -> In e (edges g')) ->
  reachable g u x -> reachable g' u x.
Proof.
  intros Hsub. induction 1 as [|v w _ IH He].
  - constructor.
  - exact (reach_step g' u v w IH (Hsub _ He)).
Qed.

Lemma flow_step_reachable (source role : string) (mid_y : pynum) (i : nat)
    (item : string * json) (st st' : flow_state) :
  flow_step source role mid_y i (fst item) (snd item) st = Ok st' ->
  (forall x, In x (nodes (G st)) -> reachable (G st) source x) ->
  forall x, In x (nodes (G st')) -> reachable (G st') source x.
Proof.
  intros H Hr x Hx.
  destruct (flow_step_nodes_sub _ _ _ _ _ _ _ x H Hx) as [H0|[->|H0]].
  - apply (reachable_mono (G st)); [|now apply Hr].
    exact (flow_step_edges_mono _ _ _ _ _ _ _ H).
  - constructor.
  - clear Hx Hr. destruct item as [r v]. cbn [fst snd] in H.
    unfold step_writes, right_writes, collector_writes, payee_writes in H0.
    cbn [fst snd] in H0.
    destruct v as [| | | | |d]; try contradiction.
    pose proof H as H'. rewrite flow_step_spec in H'.
    destruct (collector_label d) as [cb|] eqn:Ecb; [|discriminate H'].
    destruct (payee_label role d) as [p|] eqn:Ep; [|discriminate H'].
    clear H'.
    destruct (flow_step_adds_right _ _ _ _ _ _ _ _ H) as [_ Hsr].
    assert (reachable (G st') source r) as Rr
        by exact (reach_step _ _ _ _ (reach_here _ _) Hsr).
    destruct (Dict.mem marker_key d) eqn:Em.
    { destruct H0 as [<-|[]]. exact Rr. }
    destruct (flow_step_adds_chain _ _ _ _ _ _ _ _ H cb p Em Ecb Ep)
      as [Hcb Hp].
    assert (PyStr.nonempty cb = true -> reachable (G st') source cb) as Rcb.
    { intros E. exact (reach_step _ _ _ _ Rr (proj2 (Hcb E))). }
    assert (PyStr.nonempty p = true -> reachable (G st') source p) as Rp.
    { intros E. destruct (Hp E) as [_ He].
      destruct (PyStr.nonempty cb) eqn:Ec.
      - exact (reach_step _ _ _ _ (Rcb eq_refl) He).
      - exact (reach_step _ _ _ _ Rr He). }
    rewrite !in_app_iff in H0.
    destruct H0 as [[<-|[]]|[H0|H0]]; [exact Rr| |].
    + destruct (PyStr.nonempty cb); [|contradiction].
      destruct H0 as [<-|[]]. now apply Rcb.
    + destruct (PyStr.nonempty p); [|contradiction].
      destruct H0 as [<-|[]]. now apply Rp.
Qed.

(** X17: every node of the diagram is the source or a label the loop wrote
    for one of the rights (the right, its collector or its payee), and is
    connected to the source by a path of edges: the diagram has no
    isolated part. *)
Theorem X17_nodes_reachable
    (source role : string) (items : jdict) (st : flow_state) (x : string) :
  build_flow source role (JObj items) = Ok st ->
  In x (nodes (G st)) ->
  reachable (G st) source x
  /\ (x = source
      \/ exists item, In item items /\ In x (step_writes role item)).
Proof.
  intros Hb Hx.
  assert (forall x, In x (nodes (G st)) ->
            reachable (G st) source x
            /\ (x = source
                \/ exists item, In item items /\ In x (step_writes role item)))
    as Hall; [|now apply Hall].
  apply (build_flow_invariant source role items
           (fun _ st => forall x, In x (nodes (G st)) ->
              reachable (G st) source x
              /\ (x = source
                  \/ exists item, In item items
                                  /\ In x (step_writes role item))) st);
    [| |exact Hb].
  - simpl. intros y [<-|[]]. split; [constructor | now left].
  - intros pre item post st0 st1 Hitems IH Hstep y Hy. split.
    + apply (flow_step_reachable _ _ _ _ _ _ _ Hstep); [|exact Hy].
      intros z Hz. exact (proj1 (IH z Hz)).
    + destruct (flow_step_nodes_sub _ _ _ _ _ _ _ y Hstep Hy)
        as [H0|[->|H0]].
      * exact (proj2 (IH y H0)).
      * now left.
      * right. exists item. split; [|exact H0].
        rewrite Hitems. apply in_app_iff. right. now left.
Qed.

Lemma X17_nodes_reachable_witness :
  reachable (G two_rights_flow) "interactive_dsp" "Artist".
Proof.
  refine (proj1 (X17_nodes_reachable "interactive_dsp" "artist_label"
                   two_rights two_rights_flow "Artist" eq_refl _)).
  vm_compute. tauto.
Defined.

(* ------------------------------------------------------------------ *)
(** ** Colours and positions *)

Lemma build_flow_colors (source role : string) (items : jdict)
    (st : flow_state) :
  build_flow source role (JObj items) = Ok st ->
  forall x c, color_of st x = Some c ->
    (c = source_color \/ c = inapplicable_color)
    /\ (c = inapplicable_color -> marked_right items x).
Proof.
  apply (build_flow_invariant source role items
           (fun _ st => forall x c, color_of st x = Some c ->
              (c = source_color \/ c = inapplicable_color)
              /\ (c = inapplicable_color -> marked_right items x)) st).
  - intros x c. unfold color_of, flow_init. simpl.
    destruct (String.eqb x source); [|discriminate].
    intros Hc. injection Hc as <-. split; [now left | discriminate].
  - intros pre item post st0 st1 Hitems IH Hstep x c.
    rewrite (flow_step_color _ _ _ _ _ _ _ Hstep x).
    destruct (existsb (String.eqb x) (payee_writes role item));
      [intros Hc; injection Hc as <-; split; [now left | discriminate]|].
    destruct (existsb (String.eqb x) (collector_writes item));
      [intros Hc; injection Hc as <-; split; [now left | discriminate]|].
    destruct (existsb (String.eqb x) (right_writes item)) eqn:E3;
      [|apply IH].
    apply existsb_eqb_In in E3. intros Hc. injection Hc as <-.
    destruct item as [r v]. unfold right_writes, right_color in *.
    cbn [fst snd] in *. destruct v as [| | | | |d]; try contradiction.
    destruct E3 as [<-|[]].
    destruct (Dict.mem marker_key d) eqn:Em.
    + split; [now right|]. intros _. exists d. split; [|exact Em].
      rewrite Hitems. apply in_app_iff. right. now left.
    + split; [now left | discriminate].
Qed.

Lemma build_flow_positioned (source role : string) (items : jdict)
    (st : flow_state) :
  build_flow source role (JObj items) = Ok st ->
  forall x, In x (nodes (G st)) -> position_of st x <> None.
Proof.
  intros Hb.
  apply (build_flow_invariant source role items
           (fun _ st => In source (nodes (G st))
                        /\ forall x, In x (nodes (G st)) ->
                                     position_of st x <> None) st);
    [| |exact Hb].
  - split; [now left|]. intros x. unfold position_of, flow_init. simpl.
    intros [<-|[]]. rewrite String.eqb_refl. discriminate.
  - intros pre item post st0 st1 _ [Hs IH] H. split.
    { exact (flow_step_nodes_mono _ _ _ _ _ _ _ H source Hs). }
    intros x Hx.
    rewrite (flow_step_position _ _ _ _ _ _ _ H x).
    destruct (existsb (String.eqb x) (payee_writes role item)) eqn:E1;
      [discriminate|].
    destruct (existsb (String.eqb x) (collector_writes item)) eqn:E2;
      [discriminate|].
    destruct (existsb (String.eqb x) (right_writes item)) eqn:E3;
      [discriminate|].
    destruct (flow_step_nodes_sub _ _ _ _ _ _ _ x H Hx) as [H0|[->|H0]];
      auto.
    unfold step_writes in H0. rewrite !in_app_iff in H0.
    rewrite <- !existsb_eqb_In in H0. rewrite E1, E2, E3 in H0.
    intuition discriminate.
Qed.

(** X18: a node is coloured light blue or red, and only a right whose
    detail carries the not-applicable marker is ever red. *)
Theorem X18_colours
    (source role : string) (items : jdict) (st : flow_state) (x c : string) :
  build_flow source role (JObj items) = Ok st ->
  color_of st x = Some c ->
  (c = "lightblue" \/ c = "red")
  /\ (c = "red" -> marked_right items x).
Proof. intros Hb. exact (build_flow_colors source role items st Hb x c). Qed.

Lemma X18_colours_witness :
  "lightblue" = "lightblue" \/ "lightblue" = "red".
Proof.
  exact (proj1 (X18_colours "interactive_dsp" "artist_label" two_rights
                  two_rights_flow "Label" "lightblue" eq_refl eq_refl)).
Defined.

(** X19: every position lies on the grid of the layout: the source at
    (0, mid), a right at (2, -2i) and a collector at (4, -2i) for a row
    i below the number of rights, a payee at (6, mid). *)
Theorem X19_positions_on_grid
    (source role : string) (items : jdict) (st : flow_state)
    (x : string) (p : position) :
  build_flow source role (JObj items) = Ok st ->
  position_of st x = Some p ->
  on_grid (length items) (mid_y_of (Z.of_nat (length items))) p.
Proof.
  intros Hb. exact (build_flow_on_grid source role items st Hb x p).
Qed.

Lemma X19_positions_on_grid_witness :
  on_grid 2 (mid_y_of 2) (PInt 4, PInt (-2)).
Proof.
  exact (X19_positions_on_grid "interactive_dsp" "artist_label" two_rights
           two_rights_flow "SoundExchange" (PInt 4, PInt (-2))
           eq_refl eq_refl).
Defined.

(* ------------------------------------------------------------------ *)
(** ** What reaches the renderer *)

(** X16: a figure that is shown can be drawn: it has one colour per node,
    in the order of the nodes, each light blue or red, and a position for
    every node. *)
Theorem X16_figure_is_drawable (render : figure -> result unit)
    (source region role : string) (rights : json) (fig : figure) :
  In (StPyplot fig)
     (log (generate_flowchart render source region role rights)) ->
  length (fig_node_color fig) = length (nodes (fig_graph fig))
  /\ Forall (fun c => c = "lightblue" \/ c = "red") (fig_node_color fig)
  /\ forall x, In x (nodes (fig_graph fig)) ->
               Dict.lookup x (fig_pos fig) <> None.
Proof.
  intros H.
  destruct (generate_flowchart_figure _ _ _ _ _ _ H)
    as (items & st & colors & -> & Hb & Hc & -> & _).
  cbn [fig_node_color fig_graph fig_pos].
  apply rmap_index_spec in Hc.
  split; [symmetry; exact (Forall2_length Hc)|]. split.
  - clear H. induction Hc as [|x c l cs Hx _ IH]; constructor; auto.
    exact (proj1 (build_flow_colors source role items st Hb x c Hx)).
  - exact (build_flow_positioned source role items st Hb).
Qed.

Lemma X16_figure_is_drawable_witness :
  exists fig,
    length (fig_node_color fig) = length (nodes (fig_graph fig)).
Proof.
  eexists.
  refine (proj1 (X16_figure_is_drawable (fun _ => Ok tt)
                   "interactive_dsp" "us" "artist_label"
                   (JObj two_rights) _ _)).
  vm_compute. left. reflexivity.
Defined.

(* ------------------------------------------------------------------ *)
(** ** When the diagram fails *)

(** X13: on a non-empty mapping the construction succeeds exactly when
    every detail that is a mapping has a string (or nothing) under
    [collected_by] and under [payee].  Then the figure built goes to the
    renderer: it is shown when the renderer accepts it, and otherwise the
    renderer's exception goes on and nothing is shown.  When some detail is
    not text the call raises [AttributeError] before anything is drawn and
    shows nothing, neither a figure nor a message, also when the offending
    right carries the not-applicable marker. *)
Theorem X13_flowchart_errors (render : figure -> result unit)
    (source region role : string) (items : jdict) :
  items <> [] ->
  if forallb detail_is_text items
  then exists st colors,
         build_flow source role (JObj items) = Ok st
         /\ let fig := mkFigure (G st) (node_positions st) colors
                         (flow_title source region role) in
            generate_flowchart render source region role (JObj items)
            = match render fig with
              | Ok _ => mkUi (Ok tt) [StPyplot fig]
              | Raise e => mkUi (Raise e) []
              end
  else build_flow source role (JObj items) = Raise AttributeError
       /\ generate_flowchart render source region role (JObj items)
          = mkUi (Raise AttributeError) [].
Proof.
  intros Hne.
  pose proof (flow_loop_text source role
                (mid_y_of (Z.of_nat (length items))) items 0%nat
                (flow_init source (mid_y_of (Z.of_nat (length items)))))
    as Hl.
  rewrite <- build_flow_unfold in Hl.
  destruct (forallb detail_is_text items).
  - destruct Hl as [st Hb].
    destruct (generate_flowchart_draws source region role items st Hne Hb)
      as [colors [_ E]].
    exists st, colors. split; [exact Hb|]. cbn zeta.
    rewrite E. apply show_figure_cases.
  - split; [exact Hl|]. unfold generate_flowchart.
    assert (truthy (JObj items) = true) as -> by now destruct items.
    cbn [is_dict negb orb]. rewrite Hl. reflexivity.
Qed.

Lemma X13_flowchart_errors_witness :
  generate_flowchart (fun _ => Ok tt) "interactive_dsp" "us" "artist_label"
    (JObj [("sync_fees",
            JObj [("fully_not_applicable", JStr "not tracked digitally");
                  ("collected_by", JNull)])])
  = mkUi (Raise AttributeError) [].
Proof.
  refine (proj2 (X13_flowchart_errors (fun _ => Ok tt)
                   "interactive_dsp" "us" "artist_label"
                   [("sync_fees",
                     JObj [("fully_not_applicable",
                            JStr "not tracked digitally");
                           ("collected_by", JNull)])] _)).
  discriminate.
Defined.

(* ------------------------------------------------------------------ *)
(** ** Where the edges come from *)

Lemma flow_step_edges_sub (source role : string) (mid_y : pynum) (i : nat)
    (item : string * json) (st st' : flow_state) (e : string * string) :
  flow_step source role mid_y i (fst item) (snd item) st = Ok st' ->
  In e (edges (G st')) ->
  In e (edges (G st))
  \/ exists d cb p,
       snd item = JObj d
       /\ collector_label d = Ok cb /\ payee_label role d = Ok p
       /\ (e = (source, fst item)
           \/ (Dict.mem marker_key d = false
               /\ ((PyStr.nonempty cb = true /\ e = (fst item, cb))
                   \/ (PyStr.nonempty p = true
                       /\ e = (if PyStr.nonempty cb then cb else fst item,
                               p))))).
Proof.
  intros H. destruct item as [r v]. cbn [fst snd] in *.
  destruct v as [| | | | |d]; try (cbn in H; injection H as <-; now left).
  rewrite flow_step_spec in H.
  destruct (collector_label d) as [cb|] eqn:Ecb; [|discriminate H].
  destruct (payee_label role d) as [p|] eqn:Ep; [|discriminate H].
  cbn [rbind] in H. injection H as <-.
  destruct (Dict.mem marker_key d) eqn:Em.
  - rewrite edges_place_right. intros [->|He]; [|now left].
    right. exists d, cb, p. auto.
  - rewrite edges_place_payee, edges_place_collector, edges_place_right.
    intros [[Hp ->]|[[Hc ->]|[->|He]]]; [| | |now left];
      right; exists d, cb, p; auto 10.
Qed.

(** X20: every edge of the diagram belongs to the chain of one right of
    the mapping: from the source to the right, from the right to its
    collector, or from the collector (the right itself when there is no
    collector) to the payee; and only a right without the not-applicable
    marker has edges beyond the first. *)
Theorem X20_edges_follow_chain
    (source role : string) (items : jdict) (st : flow_state)
    (u v : string) :
  build_flow source role (JObj items) = Ok st ->
  In (u, v) (edges (G st)) ->
  exists r d cb p,
    In (r, JObj d) items
    /\ collector_label d = Ok cb /\ payee_label role d = Ok p
    /\ ((u = source /\ v = r)
        \/ (Dict.mem marker_key d = false
            /\ ((PyStr.nonempty cb = true /\ u = r /\ v = cb)
                \/ (PyStr.nonempty p = true
                    /\ u = (if PyStr.nonempty cb then cb else r)
                    /\ v = p)))).
Proof.
  intros Hb. revert u v.
  apply (build_flow_invariant source role items
           (fun _ st => forall u v, In (u, v) (edges (G st)) ->
              exists r d cb p,
                In (r, JObj d) items
                /\ collector_label d = Ok cb /\ payee_label role d = Ok p
                /\ ((u = source /\ v = r)
                    \/ (Dict.mem marker_key d = false
                        /\ ((PyStr.nonempty cb = true /\ u = r /\ v = cb)
                            \/ (PyStr.nonempty p = true
                                /\ u = (if PyStr.nonempty cb then cb else r)
                                /\ v = p))))) st);
    [| |exact Hb].
  - intros u v [].
  - intros pre item post st0 st1 Hitems IH Hstep u v Huv.
    destruct (flow_step_edges_sub _ _ _ _ _ _ _ _ Hstep Huv)
      as [Hold|(d & cb & p & Hd & Hcb & Hp & Hnew)]; [now apply IH|].
    exists (fst item), d, cb, p.
    split.
    { rewrite Hitems. apply in_app_iff. right. left.
      destruct item as [r x]. cbn [fst snd] in *. now subst. }
    split; [exact Hcb|]. split; [exact Hp|].
    destruct Hnew as [E|[Hm [[Hc E]|[Hpn E]]]]; injection E as -> ->; auto 10.
Qed.

Lemma X20_edges_follow_chain_witness :
  exists r d cb p,
    In (r, JObj d) two_rights
    /\ collector_label d = Ok cb /\ payee_label "artist_label" d = Ok p
    /\ (("Label" = "interactive_dsp" /\ "Artist" = r)
        \/ (Dict.mem marker_key d = false
            /\ ((PyStr.nonempty cb = true /\ "Label" = r /\ "Artist" = cb)
                \/ (PyStr.nonempty p = true
                    /\ "Label" = (if PyStr.nonempty cb then cb else r)
                    /\ "Artist" = p)))).
Proof.
  refine (X20_edges_follow_chain "interactive_dsp" "artist_label" two_rights
            two_rights_flow "Label" "Artist" eq_refl _).
  vm_compute. tauto.
Defined.
